(** * Ray Tracer: submission engine, error classifier and pool cache

    A shallow embedding of the TypeScript services of the repository
    (error-handler.service.ts, transaction.service.ts and the two
    revisions of raydium.service.ts) and the properties of the
    specification that were checked against them.

    Conventions of the embedding.
    - A JavaScript value of type [any] is a tree of type [JS.value]:
      primitives, arrays, plain objects (association lists in insertion
      order) and [Error] instances.  Numbers are the integers of [Z];
      cyclic objects, symbols, getters and functions are outside the model.
    - Strings are [string]; [toLowerCase] maps the letters A-Z only.
    - An operation that may throw returns [Exc A]: [Ok a] or [Throw e].
    - Calls to the logger only print and are left out.
    - Times and delays are milliseconds. *)

From Stdlib Require Import ZArith QArith List String Ascii Bool Lia Lqa.
From Stdlib Require Import Qminmax Qabs DecimalString.
Import ListNotations.

Set Warnings "-register-all".
Close Scope Q_scope.
Open Scope string_scope.
Open Scope Z_scope.

(** * JavaScript values and exceptions *)

Module JS.

(** A JavaScript value. *)
Inductive value : Type :=
| Undefined
| Null
| Bool (b : bool)
| Num (n : Z)
| Str (s : string)
| Arr (items : list value)
| Obj (fields : list (string * value))
| Err (name message : string).

(** The result of an expression that may throw. *)
Inductive Exc (A : Type) : Type :=
| Ok (a : A)
| Throw (e : value).

Arguments Ok {A} a.
Arguments Throw {A} e.

Definition bind {A B} (m : Exc A) (k : A -> Exc B) : Exc B :=
  match m with
  | Ok a => k a
  | Throw e => Throw e
  end.

(** [try { body } catch (error) { handler error }] *)
Definition try_catch {A} (body : Exc A) (handler : value -> Exc A) : Exc A :=
  match body with
  | Ok a => Ok a
  | Throw e => handler e
  end.

Definition TypeError (message : string) : value := Err "TypeError" message.

(** [new Error(message)] *)
Definition new_Error (message : string) : value := Err "Error" message.

(** ** Primitive operations *)

Inductive type_tag : Type :=
| t_undefined | t_object | t_boolean | t_number | t_string.

Definition typeof (v : value) : type_tag :=
  match v with
  | Undefined => t_undefined
  | Null => t_object
  | Bool _ => t_boolean
  | Num _ => t_number
  | Str _ => t_string
  | Arr _ | Obj _ | Err _ _ => t_object
  end.

Definition is_string (v : value) : bool :=
  match v with Str _ => true | _ => false end.

Definition is_object (v : value) : bool :=
  match typeof v with t_object => true | _ => false end.

(** [v instanceof Error] *)
Definition instanceof_Error (v : value) : bool :=
  match v with Err _ _ => true | _ => false end.

Definition isArray (v : value) : bool :=
  match v with Arr _ => true | _ => false end.

(** Truthiness, as tested by [if (v)], [!v], [a && b] and [a || b]. *)
Definition truthy (v : value) : bool :=
  match v with
  | Undefined | Null => false
  | Bool b => b
  | Num n => negb (n =? 0)
  | Str s => negb (s =? EmptyString)%string
  | Arr _ | Obj _ | Err _ _ => true
  end.

Fixpoint lookup (key : string) (fields : list (string * value)) : option value :=
  match fields with
  | [] => None
  | (k, v) :: rest => if (k =? key)%string then Some v else lookup key rest
  end.

Definition string_of_Z (n : Z) : string :=
  NilZero.string_of_int (Z.to_int n).

(** The property [key] of a value that is neither [null] nor [undefined]. *)
Definition prop (v : value) (key : string) : value :=
  match v with
  | Obj fields =>
      match lookup key fields with Some x => x | None => Undefined end
  | Err name message =>
      if (key =? "message")%string then Str message
      else if (key =? "name")%string then Str name
      else Undefined
  | Arr items =>
      if (key =? "length")%string then Num (Z.of_nat (List.length items))
      else Undefined
  | Str s =>
      if (key =? "length")%string then Num (Z.of_nat (String.length s))
      else Undefined
  | _ => Undefined
  end.

(** Property read [v.key]; reading a property of [null] or [undefined]
    throws. *)
Definition get (v : value) (key : string) : Exc value :=
  match v with
  | Undefined =>
      Throw (TypeError ("Cannot read properties of undefined (reading '" ++ key ++ "')"))
  | Null =>
      Throw (TypeError ("Cannot read properties of null (reading '" ++ key ++ "')"))
  | _ => Ok (prop v key)
  end.

(** Optional chaining [v?.key]. *)
Definition get_opt (v : value) (key : string) : value :=
  match v with
  | Undefined | Null => Undefined
  | _ => prop v key
  end.

(** Array destructuring [const [x0, x1] = v]: the element at [i]. *)
Definition item (i : nat) (v : value) : value :=
  match v with
  | Arr items => nth i items Undefined
  | _ => Undefined
  end.

Fixpoint index_keys (start : nat) (items : list value) : list string :=
  match items with
  | [] => []
  | _ :: rest => string_of_Z (Z.of_nat start) :: index_keys (S start) rest
  end.

(** [Object.keys(v)] for an object [v]. *)
Definition Object_keys (v : value) : list string :=
  match v with
  | Obj fields => map fst fields
  | Arr items => index_keys 0 items
  | _ => []
  end.

(** [key in v]; the right operand must be an object. *)
Definition has_key (key : string) (v : value) : Exc bool :=
  match v with
  | Obj fields =>
      Ok (match lookup key fields with Some _ => true | None => false end)
  | Arr items =>
      Ok (existsb (String.eqb key) ("length" :: index_keys 0 items))
  | Err _ _ =>
      Ok (existsb (String.eqb key) ["message"; "stack"])
  | _ =>
      Throw (TypeError ("Cannot use 'in' operator to search for '" ++ key ++ "'"))
  end.

Definition join (sep : string) (parts : list string) : string :=
  match parts with
  | [] => EmptyString
  | p :: rest => fold_left (fun acc q => acc ++ sep ++ q) rest p
  end.

(** String conversion, as performed by a template literal [`${v}`] and by
    [String(v)]. *)
Fixpoint toStr (v : value) : string :=
  match v with
  | Undefined => "undefined"
  | Null => "null"
  | Bool true => "true"
  | Bool false => "false"
  | Num n => string_of_Z n
  | Str s => s
  | Arr items =>
      join "," (map (fun x => match x with
                              | Undefined | Null => EmptyString
                              | _ => toStr x
                              end) items)
  | Obj _ => "[object Object]"
  | Err name message =>
      if (message =? EmptyString)%string then name
      else if (name =? EmptyString)%string then message
      else name ++ ": " ++ message
  end.

(** Whether the string conversion of a value succeeds.  A plain object is
    converted by the [toString] it inherits; an own property [toString] of
    the model is data, not a function, and hides it, and the conversion then
    throws.  An array converts its elements, but for [null] and [undefined]. *)
Fixpoint stringifiable (v : value) : bool :=
  match v with
  | Obj fields =>
      match lookup "toString" fields with Some _ => false | None => true end
  | Arr items =>
      forallb (fun x => match x with
                        | Undefined | Null => true
                        | _ => stringifiable x
                        end) items
  | _ => true
  end.

(** A template literal hole [`${v}`], also [String(v)]: it throws a
    TypeError when the value cannot be converted. *)
Definition template (v : value) : Exc string :=
  if stringifiable v then Ok (toStr v)
  else Throw (TypeError "Cannot convert object to primitive value").

(** The value that a call raises, if it raises, can be converted to a
    string: so it is for every [Error] instance and every primitive. *)
Definition raises_printable {A : Type} (outcome : Exc A) : Prop :=
  match outcome with
  | Throw e => stringifiable e = true
  | Ok _ => True
  end.

(** *** JSON.stringify *)

Definition hex_digit (n : nat) : ascii :=
  match n with
  | 0%nat => "0" | 1%nat => "1" | 2%nat => "2" | 3%nat => "3"
  | 4%nat => "4" | 5%nat => "5" | 6%nat => "6" | 7%nat => "7"
  | 8%nat => "8" | 9%nat => "9" | 10%nat => "a" | 11%nat => "b"
  | 12%nat => "c" | 13%nat => "d" | 14%nat => "e" | _ => "f"
  end%char.

Definition escape_char (c : ascii) : string :=
  let n := nat_of_ascii c in
  if (n =? 34)%nat then String "\" (String (ascii_of_nat 34) EmptyString)
  else if (n =? 92)%nat then "\\"
  else if (n =? 8)%nat then "\b"
  else if (n =? 12)%nat then "\f"
  else if (n =? 10)%nat then "\n"
  else if (n =? 13)%nat then "\r"
  else if (n =? 9)%nat then "\t"
  else if (n <? 32)%nat then
    "\u00" ++ String (hex_digit (n / 16)) (String (hex_digit (n mod 16)) EmptyString)
  else String c EmptyString.

Fixpoint escape (s : string) : string :=
  match s with
  | EmptyString => EmptyString
  | String c rest => escape_char c ++ escape rest
  end.

Definition quote (s : string) : string :=
  String (ascii_of_nat 34) (escape s ++ String (ascii_of_nat 34) EmptyString).

(** [JSON.stringify(v)]: [None] stands for the result [undefined]. *)
Fixpoint JSON_stringify (v : value) : option string :=
  match v with
  | Undefined => None
  | Null => Some "null"
  | Bool true => Some "true"
  | Bool false => Some "false"
  | Num n => Some (string_of_Z n)
  | Str s => Some (quote s)
  | Arr items =>
      Some ("[" ++ join "," (map (fun x => match JSON_stringify x with
                                            | Some s => s
                                            | None => "null"
                                            end) items) ++ "]")
  | Obj fields =>
      Some ("{" ++ join ","
              (flat_map (fun kv => match JSON_stringify (snd kv) with
                                   | Some s => [quote (fst kv) ++ ":" ++ s]
                                   | None => []
                                   end) fields) ++ "}")
  | Err _ _ => Some "{}"
  end.

(** A template literal hole filled with the result of [JSON.stringify]. *)
Definition toStr_opt (r : option string) : string :=
  match r with Some s => s | None => "undefined" end.

(** ** Strings *)

Definition lower_char (c : ascii) : ascii :=
  let n := nat_of_ascii c in
  if ((65 <=? n) && (n <=? 90))%nat then ascii_of_nat (n + 32) else c.

Fixpoint toLowerCase (s : string) : string :=
  match s with
  | EmptyString => EmptyString
  | String c rest => String (lower_char c) (toLowerCase rest)
  end.

(** [s.includes(pattern)] *)
Fixpoint includes (pattern s : string) : bool :=
  String.prefix pattern s ||
  match s with
  | EmptyString => false
  | String _ rest => includes pattern rest
  end.

(** The method call [receiver.toLowerCase()] on a value [v] that the source
    types as [string]: it throws when [v] is not a string. *)
Definition call_toLowerCase (receiver : string) (v : value) : Exc string :=
  match v with
  | Str s => Ok (toLowerCase s)
  | Undefined =>
      Throw (TypeError "Cannot read properties of undefined (reading 'toLowerCase')")
  | Null =>
      Throw (TypeError "Cannot read properties of null (reading 'toLowerCase')")
  | _ => Throw (TypeError (receiver ++ ".toLowerCase is not a function"))
  end.

End JS.

Import JS.

Notation "x <- m ;; k" := (JS.bind m (fun x => k))
  (at level 61, m at next level, right associativity).

(** * error-handler.service.ts *)

Module ErrorHandler.

Inductive ErrorCategory : Type :=
| NETWORK | WALLET | TRANSACTION | SLIPPAGE | LIQUIDITY | VALIDATION
| RAYDIUM | TOKEN | RPC | CONFIGURATION | UNKNOWN.

Inductive ErrorSeverity : Type :=
| LOW | MEDIUM | HIGH | CRITICAL.

Record ErrorInfo : Type := {
  category : ErrorCategory;
  severity : ErrorSeverity;
  message : string;
  suggestion : string;
  retryable : bool;
  technicalDetails : value
}.

Definition category_eqb (a b : ErrorCategory) : bool :=
  match a, b with
  | NETWORK, NETWORK | WALLET, WALLET | TRANSACTION, TRANSACTION
  | SLIPPAGE, SLIPPAGE | LIQUIDITY, LIQUIDITY | VALIDATION, VALIDATION
  | RAYDIUM, RAYDIUM | TOKEN, TOKEN | RPC, RPC
  | CONFIGURATION, CONFIGURATION | UNKNOWN, UNKNOWN => true
  | _, _ => false
  end.

Definition severity_eqb (a b : ErrorSeverity) : bool :=
  match a, b with
  | LOW, LOW | MEDIUM, MEDIUM | HIGH, HIGH | CRITICAL, CRITICAL => true
  | _, _ => false
  end.

(** [extractErrorMessage]: declared to return [string]; the value of
    [error.cause.message] is returned as it is found. *)
Definition extractErrorMessage (error : value) : Exc value :=
  if is_string error then Ok error
  else if instanceof_Error error then get error "message"
  else if truthy error && is_object error then
    InstructionError <- get error "InstructionError" ;;
    if truthy InstructionError then
      Ok (Str ("Instruction error: " ++ toStr_opt (JSON_stringify InstructionError)))
    else
      code <- get error "code" ;;
      msg <- get error "message" ;;
      if truthy code && truthy msg then
        code_text <- template code ;;
        message_text <- template msg ;;
        Ok (Str ("RPC Error " ++ code_text ++ ": " ++ message_text))
      else
        cause <- get error "cause" ;;
        if truthy cause then
          cause_message <- get cause "message" ;;
          if truthy cause_message then Ok cause_message
          else Ok (Str (toStr_opt (JSON_stringify error)))
        else Ok (Str (toStr_opt (JSON_stringify error)))
  else Ok (Str "Unknown error occurred").

Definition matchesPattern (message : string) (patterns : list string) : bool :=
  existsb (fun pattern => includes pattern message) patterns.

(** The body of [categorizeError] after [errorMessage.toLowerCase()]. *)
Definition categorize (lowerMessage : string) : ErrorCategory :=
  if matchesPattern lowerMessage
       ["network"; "timeout"; "connection"; "econnreset"; "enotfound";
        "fetch"; "429"; "rate limit"; "service unavailable"]
  then NETWORK
  else if matchesPattern lowerMessage
       ["rpc"; "node"; "endpoint"; "blockhash"; "slot"; "commitment"]
  then RPC
  else if matchesPattern lowerMessage
       ["insufficient funds"; "balance"; "account not found"; "private key";
        "keypair"; "signature"; "unauthorized"]
  then WALLET
  else if matchesPattern lowerMessage
       ["transaction"; "instruction"; "simulation failed"; "compute";
        "program error"; "account in use"; "blockhash expired"]
  then TRANSACTION
  else if matchesPattern lowerMessage
       ["slippage"; "price"; "tolerance"; "minimum"; "maximum"; "amount"]
  then SLIPPAGE
  else if matchesPattern lowerMessage
       ["liquidity"; "pool"; "reserves"; "lp token"; "swap"; "amm"]
  then LIQUIDITY
  else if matchesPattern lowerMessage
       ["raydium"; "pool info"; "pool keys"; "market"; "openbook"]
  then RAYDIUM
  else if matchesPattern lowerMessage
       ["token"; "mint"; "decimals"; "spl"; "associated token account"]
  then TOKEN
  else if matchesPattern lowerMessage
       ["invalid"; "validation"; "format"; "required"; "missing"; "expected"]
  then VALIDATION
  else if matchesPattern lowerMessage
       ["environment"; "config"; "api key"; "url"; "setting"]
  then CONFIGURATION
  else UNKNOWN.

Definition categorizeError (errorMessage : value) : Exc ErrorCategory :=
  lowerMessage <- call_toLowerCase "errorMessage" errorMessage ;;
  Ok (categorize lowerMessage).

(** The body of [determineSeverity] after [message.toLowerCase()]. *)
Definition severity_of (c : ErrorCategory) (lowerMessage : string) : ErrorSeverity :=
  if category_eqb c CONFIGURATION
     || includes "private key" lowerMessage
     || includes "critical" lowerMessage
  then CRITICAL
  else if (category_eqb c WALLET && includes "insufficient" lowerMessage)
          || (category_eqb c TRANSACTION && includes "failed" lowerMessage)
          || includes "unauthorized" lowerMessage
  then HIGH
  else if category_eqb c SLIPPAGE
          || category_eqb c LIQUIDITY
          || category_eqb c RPC
  then MEDIUM
  else LOW.

Definition determineSeverity (c : ErrorCategory) (message : value) : Exc ErrorSeverity :=
  lowerMessage <- call_toLowerCase "message" message ;;
  Ok (severity_of c lowerMessage).

(** The [switch] of [getErrorInfo], on a message that is a string. *)
Definition error_info (c : ErrorCategory) (lowerMessage : string) (msg : value) : ErrorInfo :=
  match c with
  | NETWORK =>
      {| category := c;
         severity := severity_of c lowerMessage;
         message := "Network connection issue";
         suggestion := "Check internet connection, try different RPC endpoint, or wait and retry";
         retryable := true;
         technicalDetails := msg |}
  | RPC =>
      {| category := c;
         severity := severity_of c lowerMessage;
         message := "RPC endpoint error";
         suggestion := "Verify Helius API key, check RPC URL, or try different commitment level";
         retryable := true;
         technicalDetails := msg |}
  | WALLET =>
      if includes "insufficient" lowerMessage then
        {| category := c;
           severity := HIGH;
           message := "Insufficient balance in wallet";
           suggestion := "Add more SOL to wallet or reduce transaction amount. Keep ~0.01 SOL for fees";
           retryable := false;
           technicalDetails := msg |}
      else
        {| category := c;
           severity := severity_of c lowerMessage;
           message := "Wallet authentication or access error";
           suggestion := "Check private key format, wallet permissions, or account status";
           retryable := false;
           technicalDetails := msg |}
  | SLIPPAGE =>
      {| category := c;
         severity := MEDIUM;
         message := "Transaction failed due to price movement";
         suggestion := "Increase slippage tolerance (--slippage 1.0) or try during stable market conditions";
         retryable := true;
         technicalDetails := msg |}
  | TRANSACTION =>
      if includes "simulation" lowerMessage then
        {| category := c;
           severity := HIGH;
           message := "Transaction simulation failed";
           suggestion := "Check wallet balance, slippage settings, or pool availability";
           retryable := true;
           technicalDetails := msg |}
      else
        {| category := c;
           severity := severity_of c lowerMessage;
           message := "Transaction execution error";
           suggestion := "Retry with higher priority fee or different parameters";
           retryable := true;
           technicalDetails := msg |}
  | LIQUIDITY =>
      {| category := c;
         severity := MEDIUM;
         message := "Liquidity pool operation failed";
         suggestion := "Check pool health, verify pool ID, or try smaller amounts";
         retryable := true;
         technicalDetails := msg |}
  | RAYDIUM =>
      {| category := c;
         severity := MEDIUM;
         message := "Raydium protocol error";
         suggestion := "Verify pool exists and is active, check Raydium API status";
         retryable := true;
         technicalDetails := msg |}
  | TOKEN =>
      {| category := c;
         severity := MEDIUM;
         message := "Token operation failed";
         suggestion := "Check token accounts exist, verify mint addresses, or create associated accounts";
         retryable := true;
         technicalDetails := msg |}
  | VALIDATION =>
      {| category := c;
         severity := LOW;
         message := "Input validation failed";
         suggestion := "Check command parameters, format, and ranges";
         retryable := false;
         technicalDetails := msg |}
  | CONFIGURATION =>
      {| category := c;
         severity := CRITICAL;
         message := "Configuration error";
         suggestion := "Check .env file settings, API keys, and environment variables";
         retryable := false;
         technicalDetails := msg |}
  | UNKNOWN =>
      {| category := UNKNOWN;
         severity := LOW;
         message := "An unexpected error occurred";
         suggestion := "Enable verbose logging (--verbose) for more details or contact support";
         retryable := true;
         technicalDetails := msg |}
  end.

Definition getErrorInfo (c : ErrorCategory) (msg : value) : Exc ErrorInfo :=
  lowerMessage <- call_toLowerCase "message" msg ;;
  Ok (error_info c lowerMessage msg).

(** [handleError(error, context)]: the classifier. *)
Definition handleError (error : value) : Exc ErrorInfo :=
  errorString <- extractErrorMessage error ;;
  c <- categorizeError errorString ;;
  _ <- determineSeverity c errorString ;;
  getErrorInfo c errorString.

Definition shouldRetry (errorInfo : ErrorInfo) (attempt maxRetries : Z) : bool :=
  if attempt >=? maxRetries then false
  else if negb (retryable errorInfo) then false
  else if severity_eqb (severity errorInfo) CRITICAL then false
  else if category_eqb (category errorInfo) VALIDATION then false
  else true.

(** [handleCommonDefiErrors]: three special cases, then [handleError]. *)
Definition handleCommonDefiErrors (error : value) : Exc ErrorInfo :=
  msg <- extractErrorMessage error ;;
  lowerMessage <- call_toLowerCase "message" msg ;;
  if includes "insufficient funds" lowerMessage && includes "0x1" lowerMessage then
    Ok {| category := WALLET;
          severity := HIGH;
          message := "Insufficient SOL balance for transaction fees";
          suggestion := "Add at least 0.01 SOL to your wallet for transaction fees";
          retryable := false;
          technicalDetails := msg |}
  else if includes "slippage tolerance exceeded" lowerMessage then
    Ok {| category := SLIPPAGE;
          severity := MEDIUM;
          message := "Price moved beyond acceptable slippage";
          suggestion := "Increase slippage tolerance with --slippage 2.0 or try smaller amounts";
          retryable := true;
          technicalDetails := msg |}
  else if includes "pool not found" lowerMessage
          || includes "invalid pool" lowerMessage then
    Ok {| category := RAYDIUM;
          severity := HIGH;
          message := "Raydium pool not accessible";
          suggestion := "Verify pool ID in constants.ts and check if pool is still active";
          retryable := false;
          technicalDetails := msg |}
  else handleError error.

End ErrorHandler.

(** * transaction.service.ts *)

Module TransactionService.

(** The part of [env] that the service reads. *)
Record Env : Type := {
  maxRetries : Z;
  retryBaseDelayMs : Q
}.

Record TransactionResult : Type := {
  success : bool;
  signature : option string;
  error : option string
}.

Inductive TransactionKind : Type :=
| Legacy       (* Transaction *)
| Versioned.   (* VersionedTransaction *)

(** [result.value] of [connection.simulateTransaction]. *)
Record SimulatedTransactionResponse : Type := {
  err : value;
  logs : option (list string);
  unitsConsumed : option Z
}.

Record SimulationResult : Type := {
  sim_success : bool;
  sim_error : option string;
  sim_logs : option (list string)
}.

(** ** parseTransactionError *)

Definition first_key (v : value) : value :=
  match Object_keys v with
  | k :: _ => Str k
  | [] => Undefined
  end.

Definition parseTransactionError (error : value) : Exc string :=
  if is_string error then Ok (toStr error)
  else if truthy error && is_object error then
    has_ie <- has_key "InstructionError" error ;;
    if has_ie && isArray (prop error "InstructionError") then
      let instructionIndex := item 0 (prop error "InstructionError") in
      let instructionError := item 1 (prop error "InstructionError") in
      if is_object instructionError then
        has_custom <- has_key "Custom" instructionError ;;
        if has_custom then
          index_text <- template instructionIndex ;;
          custom_text <- template (prop instructionError "Custom") ;;
          Ok ("Instruction " ++ index_text ++
              " failed with custom error " ++ custom_text)
        else
          index_text <- template instructionIndex ;;
          Ok ("Instruction " ++ index_text ++ " failed: " ++
              toStr (first_key instructionError))
      else
        index_text <- template instructionIndex ;;
        Ok ("Instruction " ++ index_text ++ " failed: " ++
            toStr instructionError)
    else Ok ("Transaction failed: " ++ toStr (first_key error))
  else Ok ("Unknown transaction error: " ++ toStr_opt (JSON_stringify error)).

(** ** simulateTransaction

    [rpc] is the outcome of [connection.simulateTransaction].  The handler
    converts the caught value to a string, for the log line and for the
    result. *)
Definition simulateTransaction (rpc : Exc SimulatedTransactionResponse)
  : Exc SimulationResult :=
  try_catch
    (result <- rpc ;;
     if truthy (err result) then
       errorMsg <- parseTransactionError (err result) ;;
       Ok {| sim_success := false;
             sim_error := Some errorMsg;
             sim_logs := Some (match logs result with Some l => l | None => [] end) |}
     else
       Ok {| sim_success := true;
             sim_error := None;
             sim_logs := Some (match logs result with Some l => l | None => [] end) |})
    (fun error =>
       error_text <- template error ;;
       Ok {| sim_success := false;
             sim_error := Some ("Simulation failed: " ++ error_text);
             sim_logs := None |}).

(** ** getTransactionStatus *)







(** ** calculateRetryDelay

    [random] is the value returned by [Math.random()]. *)
Definition maxDelay : Q := 30000%Q.

Definition exponentialDelay (env : Env) (attempt : Z) : Q :=
  (retryBaseDelayMs env * 2 ^ (attempt - 1))%Q.

Definition jitter (random : Q) : Q := (random * 1000)%Q.

Definition calculateRetryDelay (env : Env) (random : Q) (attempt : Z) : Q :=
  Qmin (exponentialDelay env attempt + jitter random)%Q maxDelay.

(** ** Effects of a run: the calls made on the connection, in order *)

Inductive Event : Type :=
| Attempt (attempt : Z)                 (* one iteration of the retry loop *)
| SimulateCall                          (* connection.simulateTransaction *)
| SendCall (kind : TransactionKind)     (* sendTransaction / sendRawTransaction *)
| BlockhashCall                         (* connection.getLatestBlockhash *)
| ConfirmCall (sig : string)            (* connection.confirmTransaction *)
| Sleep (delay : Q).                    (* sleep(delay) *)

(** A computation that makes calls and may throw. *)
Definition Eff (A : Type) : Type := (list Event * Exc A)%type.

Definition ret {A} (a : A) : Eff A := ([], Ok a).

Definition throw {A} (e : value) : Eff A := ([], Throw e).

Definition call {A} (ev : Event) (outcome : Exc A) : Eff A := ([ev], outcome).

Definition bindE {A B} (m : Eff A) (k : A -> Eff B) : Eff B :=
  match m with
  | (t, Ok a) => let (t', r) := k a in ((t ++ t')%list, r)
  | (t, Throw e) => (t, Throw e)
  end.

Definition try_catchE {A} (body : Eff A) (handler : value -> Eff A) : Eff A :=
  match body with
  | (t, Ok a) => (t, Ok a)
  | (t, Throw e) => let (t', r) := handler e in ((t ++ t')%list, r)
  end.

Notation "x <~ m ;; k" := (bindE m (fun x => k))
  (at level 61, m at next level, right associativity).

(** What the network answers during one attempt. *)
Record Network : Type := {
  simulate_rpc : Exc SimulatedTransactionResponse;
  send_rpc : Exc string;
  blockhash_rpc : Exc unit;
  confirm_rpc : Exc value;     (* confirmation.value.err *)
  random : Q                   (* Math.random() *)
}.

Record Options : Type := {
  skipPreflight : bool;
  opt_maxRetries : option Z;
  skipConfirmation : bool
}.

(** ** sendTransaction *)
Definition sendTransaction (transaction : TransactionKind) (net : Network)
  : Eff string :=
  call (SendCall transaction) (send_rpc net).

(** ** confirmTransaction *)
Definition confirmTransaction (sig : string) (net : Network) : Eff bool :=
  try_catchE
    (_ <~ call BlockhashCall (blockhash_rpc net) ;;
     confirmation_err <~ call (ConfirmCall sig) (confirm_rpc net) ;;
     ret (negb (truthy confirmation_err)))
    (fun _ => ret false).

(** ** sendAndConfirmTransaction *)

(** [options.maxRetries || env.maxRetries] *)
Definition effective_maxRetries (env : Env) (options : Options) : Z :=
  match opt_maxRetries options with
  | Some n => if n =? 0 then maxRetries env else n
  | None => maxRetries env
  end.

(** The body of the [try] block of one iteration. *)
Definition attempt_body (transaction : TransactionKind) (options : Options)
  (net : Network) (attempt : Z) : Eff TransactionResult :=
  _ <~ call (Attempt attempt) (Ok tt) ;;
  _ <~ (if negb (skipPreflight options) then
          simulationResult <~ call SimulateCall
                                (simulateTransaction (simulate_rpc net)) ;;
          if negb (sim_success simulationResult) then
            throw (new_Error ("Simulation failed: " ++
                     match sim_error simulationResult with
                     | Some e => e
                     | None => "undefined"
                     end))
          else ret tt
        else ret tt) ;;
  sig <~ sendTransaction transaction net ;;
  if skipConfirmation options then
    ret {| success := true; signature := Some sig; error := None |}
  else
    is_confirmed <~ confirmTransaction sig net ;;
    if is_confirmed then
      ret {| success := true; signature := Some sig; error := None |}
    else
      throw (new_Error "Transaction failed to confirm within timeout").

(** The result returned after the loop. *)
Definition failed_result (maxRetries : Z) (lastError : value) : TransactionResult :=
  {| success := false;
     signature := None;
     error := Some ("Transaction failed after " ++ toStr (Num maxRetries) ++
                    " attempts: " ++ toStr (get_opt lastError "message")) |}.

(** The loop [for (attempt; attempt <= maxRetries; attempt++)], with
    [remaining] iterations left. *)
Fixpoint retry_loop (env : Env) (transaction : TransactionKind)
  (options : Options) (net : Z -> Network) (maxRetries : Z)
  (remaining : nat) (attempt : Z) (lastError : value)
  : list Event * TransactionResult :=
  match remaining with
  | O => ([], failed_result maxRetries lastError)
  | S remaining' =>
      match attempt_body transaction options (net attempt) attempt with
      | (t, Ok result) => (t, result)
      | (t, Throw error) =>
          let pause :=
            if attempt <? maxRetries
            then [Sleep (calculateRetryDelay env (random (net attempt)) attempt)]
            else [] in
          let (t', result) :=
            retry_loop env transaction options net maxRetries
                       remaining' (attempt + 1) error in
          ((t ++ pause ++ t')%list, result)
      end
  end.

Definition sendAndConfirmTransaction (env : Env) (transaction : TransactionKind)
  (options : Options) (net : Z -> Network) : list Event * TransactionResult :=
  let maxRetries := effective_maxRetries env options in
  retry_loop env transaction options net maxRetries
             (Z.to_nat maxRetries) 1 Null.

(** ** Reading a run *)

Definition is_send (ev : Event) : bool :=
  match ev with SendCall _ => true | _ => false end.

Definition submissions (t : list Event) : nat :=
  List.length (filter is_send t).

Fixpoint attempts (t : list Event) : list Z :=
  match t with
  | [] => []
  | Attempt i :: rest => i :: attempts rest
  | _ :: rest => attempts rest
  end.

(** The simulation step of an attempt lets the attempt go on. *)
Definition simulation_passes (options : Options) (net : Network) : Prop :=
  skipPreflight options = true \/
  exists r, simulate_rpc net = Ok r /\ truthy (err r) = false.

(** The transaction is sent and the confirmation reports that it landed
    with an execution error: [confirmation.value.err] is set. *)
Definition landed_but_failed (net : Network) : Prop :=
  exists sig e,
    send_rpc net = Ok sig /\ blockhash_rpc net = Ok tt /\
    confirm_rpc net = Ok e /\ truthy e = true.


(** ** isRetryableError

    [error_message] is [error.message] of the [Error] given. *)
Definition isRetryableError (error_message : string) : bool :=
  let message := toLowerCase error_message in
  existsb (fun retryableError => includes retryableError message)
    ["timeout"; "network"; "connection"; "fetch"; "econnreset"; "enotfound";
     "blockhash not found"; "429"; "internal server error";
     "service unavailable"].

(** ** estimateTransactionFee

    [rpc] is the outcome of compiling the message and of
    [connection.getFeeForMessage]: its [value], a number or null.  Fees are
    whole numbers of lamports. *)
Record FeeEstimate : Type := {
  baseFee : Z;
  priorityFee : Z;
  total : Z
}.

Definition estimateTransactionFee (priorityFeeMicroLamports : Z)
  (rpc : Exc (option Z)) : Exc FeeEstimate :=
  try_catch
    (feeCalculator_value <- rpc ;;
     let baseFee :=
       match feeCalculator_value with
       | Some v => if v =? 0 then 5000 else v
       | None => 5000
       end in
     Ok {| baseFee := baseFee;
           priorityFee := priorityFeeMicroLamports;
           total := baseFee + priorityFeeMicroLamports |})
    (fun error =>
       (* logger.verbose(`Fee estimation failed: ${error}`) *)
       _ <- template error ;;
       Ok {| baseFee := 5000;
             priorityFee := priorityFeeMicroLamports;
             total := 5000 + priorityFeeMicroLamports |}).

(** ** More readings of a run *)

Fixpoint sleeps (t : list Event) : list Q :=
  match t with
  | [] => []
  | Sleep d :: rest => d :: sleeps rest
  | _ :: rest => sleeps rest
  end.

Definition total_sleep (t : list Event) : Q :=
  fold_right Qplus 0%Q (sleeps t).

Definition is_confirmation_call (ev : Event) : bool :=
  match ev with BlockhashCall | ConfirmCall _ => true | _ => false end.

Definition is_simulation_call (ev : Event) : bool :=
  match ev with SimulateCall => true | _ => false end.

(** Whatever the calls of an attempt raise can be converted to a string for
    the log lines, and so can the [message] of what the submission raises,
    which the final error text quotes. *)
Definition printable_raises (net : Network) : Prop :=
  raises_printable (simulate_rpc net) /\
  raises_printable (send_rpc net) /\
  (forall e, send_rpc net = Throw e ->
             stringifiable (get_opt e "message") = true) /\
  raises_printable (blockhash_rpc net) /\
  raises_printable (confirm_rpc net).

(** The simulation of an attempt fails: [simulateTransaction] answers with
    [success = false]. *)
Definition simulation_fails (net : Network) : Prop :=
  exists r, simulateTransaction (simulate_rpc net) = Ok r /\ sim_success r = false.

End TransactionService.

(** * services/raydium.service.ts: the pool data cache of [getPoolInfo] *)

Module RaydiumService.

Section PoolData.

Variable PoolInfo : Type.

Record PoolDataCache : Type := {
  data : option PoolInfo;
  timestamp : Z
}.

Definition CACHE_DURATION_MS : Z := 30000.

(** The service: its cache, the number of calls of [fetchFromDirectRPC] made
    so far and the number of those that have not settled yet. *)
Record Service : Type := {
  poolDataCache : PoolDataCache;
  fetches : nat;
  in_flight : nat
}.

Definition initial : Service :=
  {| poolDataCache := {| data := None; timestamp := 0 |};
     fetches := 0;
     in_flight := 0 |}.

(** The test [this.poolDataCache.data && (now - timestamp) < CACHE_DURATION_MS]:
    the cached data when the test passes. *)
Definition cached (cache : PoolDataCache) (now : Z) : option PoolInfo :=
  match data cache with
  | Some d => if now - timestamp cache <? CACHE_DURATION_MS then Some d else None
  | None => None
  end.

(** A call of the async function [getPoolInfo]. *)
Inductive Call : Type :=
| Awaiting (now : Z)            (* suspended at [await this.fetchFromDirectRPC()] *)
| Settled (r : Exc PoolInfo).   (* returned or thrown *)

(** From the call to the first [await]: [now] is [Date.now()]. *)
Definition enter (s : Service) (now : Z) : Call * Service :=
  match cached (poolDataCache s) now with
  | Some d => (Settled (Ok d), s)
  | None =>
      (Awaiting now,
       {| poolDataCache := poolDataCache s;
          fetches := S (fetches s);
          in_flight := S (in_flight s) |})
  end.

(** From the [await] to the end: [fetched] is the outcome of
    [fetchFromDirectRPC]. *)
Definition resume (s : Service) (now : Z) (fetched : Exc PoolInfo)
  : Exc PoolInfo * Service :=
  match fetched with
  | Ok poolInfo =>
      (Ok poolInfo,
       {| poolDataCache := {| data := Some poolInfo; timestamp := now |};
          fetches := fetches s;
          in_flight := pred (in_flight s) |})
  | Throw error =>
      (Throw (new_Error ("Failed to fetch real pool data: " ++ toStr error)),
       {| poolDataCache := poolDataCache s;
          fetches := fetches s;
          in_flight := pred (in_flight s) |})
  end.

(** One call of [getPoolInfo] run to its end without interleaving. *)
Definition getPoolInfo (s : Service) (now : Z) (fetchFromDirectRPC : Exc PoolInfo)
  : Exc PoolInfo * Service :=
  match enter s now with
  | (Settled r, s') => (r, s')
  | (Awaiting t, s') => resume s' t fetchFromDirectRPC
  end.

(** Callers that arrive one after the other, none of them resumed yet. *)
Fixpoint arrive (s : Service) (arrivals : list Z) : list Call * Service :=
  match arrivals with
  | [] => ([], s)
  | now :: rest =>
      let (c, s') := enter s now in
      let (cs, s'') := arrive s' rest in
      (c :: cs, s'')
  end.

(** Interleavings of calls on the event loop: a new call runs to its first
    [await]; a suspended call resumes when its fetch settles. *)
Inductive step : Service * list Call -> Service * list Call -> Prop :=
| step_enter s calls now c s' :
    enter s now = (c, s') ->
    step (s, calls) (s', (calls ++ [c])%list)
| step_resume s before now after fetched r s' :
    resume s now fetched = (r, s') ->
    step (s, (before ++ Awaiting now :: after)%list)
         (s', (before ++ Settled r :: after)%list).

Inductive reachable : Service * list Call -> Prop :=
| reach_initial : reachable (initial, [])
| reach_step st st' : reachable st -> step st st' -> reachable st'.

End PoolData.

Arguments data {PoolInfo} _.
Arguments timestamp {PoolInfo} _.
Arguments poolDataCache {PoolInfo} _.
Arguments fetches {PoolInfo} _.
Arguments in_flight {PoolInfo} _.
Arguments Awaiting {PoolInfo} now.
Arguments Settled {PoolInfo} r.

(** The calls that are suspended on a fetch. *)
Definition suspended {PoolInfo : Type} (calls : list (Call PoolInfo)) : nat :=
  List.length (filter (fun c => match c with
                                | Awaiting _ => true
                                | Settled _ => false
                                end) calls).

End RaydiumService.

(** * utils/helpers.ts *)

Module Helpers.

(** ** retry

    The loop of [retry], which [withRetry] of the SDK revision of
    raydium.service.ts repeats with another delay:
    [for (i = 0; i <= maxRetries; i++) { try { return await operation(); }
     catch (error) { lastError = error; if (i < maxRetries) sleep(delay) } }
     throw lastError]. *)

Inductive RetryEvent : Type :=
| Invoke (attempt : Z)   (* operation() *)
| Wait (delay : Z).      (* sleep(delay) *)

Section Backoff.

Variable T : Type.
Variable operation : Z -> Exc T.   (* the outcome of the call made at index i *)
Variable delay : Z -> Z.
Variable maxRetries : Z.

Fixpoint backoff_loop (remaining : nat) (attempt : Z) (lastError : value)
  : list RetryEvent * Exc T :=
  match remaining with
  | O => ([], Throw lastError)
  | S remaining' =>
      match operation attempt with
      | Ok v => ([Invoke attempt], Ok v)
      | Throw error =>
          let pause :=
            if attempt <? maxRetries then [Wait (delay attempt)] else [] in
          let (t, result) := backoff_loop remaining' (attempt + 1) error in
          ((Invoke attempt :: pause ++ t)%list, result)
      end
  end.

End Backoff.

(** [retry(operation, maxRetries, baseDelay)]; the delays are
    [baseDelay * Math.pow(2, attempt)], for whole numbers of milliseconds. *)
Definition retry {T} (operation : Z -> Exc T) (maxRetries baseDelay : Z)
  : list RetryEvent * Exc T :=
  backoff_loop T operation (fun attempt => baseDelay * 2 ^ attempt) maxRetries
               (Z.to_nat (maxRetries + 1)) 0 Undefined.

Fixpoint invocations (t : list RetryEvent) : list Z :=
  match t with
  | [] => []
  | Invoke i :: rest => i :: invocations rest
  | Wait _ :: rest => invocations rest
  end.

Fixpoint waits (t : list RetryEvent) : list Z :=
  match t with
  | [] => []
  | Wait d :: rest => d :: waits rest
  | Invoke _ :: rest => waits rest
  end.

Definition total_wait (t : list RetryEvent) : Z :=
  fold_right Z.add 0 (waits t).

(** The indices [from], [from + 1], ..., [n] of them. *)
Fixpoint range (from : Z) (n : nat) : list Z :=
  match n with
  | O => []
  | S n' => from :: range (from + 1) n'
  end.

(** ** truncateAddress *)

(** An index argument of [slice], resolved against the length. *)
Definition resolve_index (len i : Z) : Z :=
  if i <? 0 then Z.max (len + i) 0 else Z.min i len.

(** [s.slice(start, stop)]; [None] for an omitted [stop]. *)
Definition slice (s : string) (start : Z) (stop : option Z) : string :=
  let len := Z.of_nat (String.length s) in
  let from := resolve_index len start in
  let to := match stop with Some e => resolve_index len e | None => len end in
  String.substring (Z.to_nat from) (Z.to_nat (to - from)) s.

Definition truncateAddress (address : string) (startLength endLength : Z) : string :=
  if Z.of_nat (String.length address) <=? startLength + endLength then address
  else slice address 0 (Some startLength) ++ "..." ++ slice address (- endLength) None.

(** ** formatDuration, for a whole number of seconds *)
Definition formatDuration (seconds : Z) : string :=
  let hours := seconds / 3600 in
  let minutes := Z.rem seconds 3600 / 60 in
  let secs := Z.rem seconds 60 in
  if hours >? 0 then
    string_of_Z hours ++ "h " ++ string_of_Z minutes ++ "m " ++ string_of_Z secs ++ "s"
  else if minutes >? 0 then
    string_of_Z minutes ++ "m " ++ string_of_Z secs ++ "s"
  else string_of_Z secs ++ "s".

End Helpers.

(** * raydium.service.ts (Raydium SDK revision): [withdrawLiquidity] *)

Module RaydiumSdk.

Import TransactionService.

Record LiquidityPosition : Type := {
  lpTokenBalance : Q;
  valueUSD : Q;
  tokenAAmount : Q;
  tokenBAmount : Q
}.

Inductive TxVersion : Type := V0 | LEGACY.

Section Withdraw.

Variable PoolInfo : Type.

(** The argument of [raydium.liquidity.removeLiquidity]; [lpAmount] is the
    number handed to [new BN]. *)
Record RemoveLiquidityParams : Type := {
  poolInfo : PoolInfo;
  lpAmount : Q;
  baseAmountMin : Z;
  quoteAmountMin : Z;
  txVersion : TxVersion
}.

Inductive SdkCall : Type :=
| RemoveLiquidity (params : RemoveLiquidityParams)
| Execute.

Definition failed (error : value) : TransactionResult :=
  {| success := false; signature := None; error := Some (toStr error) |}.

(** [new BN(number)] of bn.js: the constructor asserts that the absolute
    value of a number is below 2^53. *)
Definition BN_accepts (number : Q) : bool :=
  negb (Qle_bool (inject_Z (2 ^ 53)) (Qabs number)).

Definition new_BN (number : Q) : Exc Q :=
  if BN_accepts number then Ok number
  else Throw (new_Error "Assertion failed").

(** [getLiquidityPosition], [getPoolInfo] and [execute] are the outcomes of
    the awaited calls; [removeLiquidity] is the SDK method. *)
Definition withdrawLiquidity
  (getLiquidityPosition : Exc (option LiquidityPosition))
  (getPoolInfo : Exc PoolInfo)
  (removeLiquidity : RemoveLiquidityParams -> Exc unit)
  (execute : Exc string)
  : list SdkCall * TransactionResult :=
  match getLiquidityPosition with
  | Throw e => ([], failed e)
  | Ok None => ([], failed (new_Error "No liquidity position found"))
  | Ok (Some position) =>
      match getPoolInfo with
      | Throw e => ([], failed e)
      | Ok pool =>
          match new_BN (lpTokenBalance position * 10 ^ 6)%Q with
          | Throw e => ([], failed e)
          | Ok lp =>
              let params :=
                {| poolInfo := pool;
                   lpAmount := lp;
                   baseAmountMin := 0;
                   quoteAmountMin := 0;
                   txVersion := V0 |} in
              match removeLiquidity params with
              | Throw e => ([RemoveLiquidity params], failed e)
              | Ok _ =>
                  match execute with
                  | Throw e => ([RemoveLiquidity params; Execute], failed e)
                  | Ok txId =>
                      ([RemoveLiquidity params; Execute],
                       {| success := true; signature := Some txId;
                          error := None |})
                  end
              end
          end
      end
  end.

End Withdraw.

Arguments poolInfo {PoolInfo} _.
Arguments lpAmount {PoolInfo} _.
Arguments baseAmountMin {PoolInfo} _.
Arguments quoteAmountMin {PoolInfo} _.
Arguments txVersion {PoolInfo} _.
Arguments RemoveLiquidity {PoolInfo} params.
Arguments Execute {PoolInfo}.

(** ** getLiquidityPosition of the SDK revision

    [getPoolInfo] and [getTokenAccountsByOwner] are the outcomes of the
    awaited calls, the latter the array [tokenAccounts.value]. *)
Section Position.

Variable PoolInfo : Type.
Variable liquidity_total liquidity_tokenA liquidity_tokenB : PoolInfo -> Q.

Definition getLiquidityPosition (getPoolInfo : Exc PoolInfo)
  (getTokenAccountsByOwner : Exc (list value))
  : Exc (option LiquidityPosition) :=
  try_catch
    (pool <- getPoolInfo ;;
     tokenAccounts <- getTokenAccountsByOwner ;;
     if (List.length tokenAccounts =? 0)%nat then Ok None
     else if negb (truthy (nth 0 tokenAccounts Undefined)) then Ok None
     else
       let lpTokenBalance := 0%Q in
       if Qeq_bool lpTokenBalance 0 then Ok None
       else
         let poolShare := (lpTokenBalance / liquidity_total pool)%Q in
         let tokenAAmount := (liquidity_tokenA pool * poolShare)%Q in
         let tokenBAmount := (liquidity_tokenB pool * poolShare)%Q in
         Ok (Some {| lpTokenBalance := lpTokenBalance;
                     valueUSD := tokenBAmount;
                     tokenAAmount := tokenAAmount;
                     tokenBAmount := tokenBAmount |}))
    (fun error => Throw error).

End Position.

(** ** withRetry: the loop of [Helpers.retry] with the delay
    [Math.min(1000 * Math.pow(2, i), 10000)]. *)
Definition withRetry {T} (operation : Z -> Exc T) (maxRetries : Z)
  : list Helpers.RetryEvent * Exc T :=
  Helpers.backoff_loop T operation (fun i => Z.min (1000 * 2 ^ i) 10000)
                       maxRetries (Z.to_nat (maxRetries + 1)) 0 Undefined.

End RaydiumSdk.

(** * validation.service.ts

    Amounts are rationals; the service only compares them with its constants
    and copies them.  [parsed] is the result of [parseFloat] on the command
    line argument, [None] for NaN. *)

Module ValidationService.

(** The part of [env] that the service reads. *)
Record Env : Type := {
  testMode : bool;
  maxPositionSizeSol : Q
}.

Record AmountValidation : Type := {
  isValid : bool;
  amount : option Q;
  error : option string;
  warnings : option (list string)
}.

Definition Qgtb (a b : Q) : bool := negb (Qle_bool a b).
Definition Qltb (a b : Q) : bool := negb (Qle_bool b a).

Definition invalid (msg : string) : AmountValidation :=
  {| isValid := false; amount := None; error := Some msg; warnings := None |}.

(** [warnings.length > 0 ? warnings : undefined] *)
Definition some_if_any (ws : list string) : option (list string) :=
  match ws with [] => None | _ => Some ws end.

Section Validation.

(** The conversion of a number to a string in a template literal. *)
Variable show_number : Q -> string.

Variable env : Env.

Definition validateDepositAmount (parsed : option Q) : AmountValidation :=
  match parsed with
  | None => invalid "Invalid amount format. Please enter a valid number (e.g., 0.1)"
  | Some numAmount =>
      if Qle_bool numAmount 0 then invalid "Amount must be greater than 0"
      else
        let minAmount := if testMode env then (1 # 1000)%Q else (1 # 1000)%Q in
        if Qltb numAmount minAmount then
          invalid ("Minimum deposit amount is " ++ show_number minAmount ++ " SOL")
        else
          let limited := testMode env && Qgtb numAmount (1 # 1000) in
          let finalAmount := if limited then (1 # 1000)%Q else numAmount in
          let w1 := if limited
                    then ["🧪 TEST MODE: Amount limited to 0.001 SOL for safety"]
                    else [] in
          if Qgtb (maxPositionSizeSol env) 0
             && Qgtb finalAmount (maxPositionSizeSol env) then
            invalid ("Amount exceeds maximum position size limit of " ++
                     show_number (maxPositionSizeSol env) ++ " SOL. " ++
                     "Adjust MAX_POSITION_SIZE_SOL in .env or use a smaller amount.")
          else
            let w2 := if Qgtb finalAmount 1
                      then ["⚠️  Large deposit detected! Consider starting with smaller amounts for learning."]
                      else [] in
            let w3 := if Qgtb finalAmount (1 # 10)
                      then ["💡 Tip: Start with 0.01-0.1 SOL to understand the process before larger deposits."]
                      else [] in
            {| isValid := true;
               amount := Some finalAmount;
               error := None;
               warnings := some_if_any (w1 ++ w2 ++ w3)%list |}
  end.

End Validation.

Record SlippageValidation : Type := {
  sl_isValid : bool;
  slippage : option Q;
  sl_error : option string;
  sl_warnings : option (list string)
}.

Definition invalid_slippage (msg : string) : SlippageValidation :=
  {| sl_isValid := false; slippage := None; sl_error := Some msg;
     sl_warnings := None |}.

Definition validateSlippage (parsed : option Q) : SlippageValidation :=
  match parsed with
  | None =>
      invalid_slippage "Invalid slippage format. Please enter a number (e.g., 0.5 for 0.5%)"
  | Some numSlippage =>
      if Qltb numSlippage (1 # 10) then
        invalid_slippage "Slippage tolerance too low. Minimum is 0.1%"
      else if Qgtb numSlippage 50 then
        invalid_slippage "Slippage tolerance too high. Maximum is 50%"
      else
        let ws :=
          if Qltb numSlippage (1 # 2) then
            ["⚠️  Low slippage tolerance. Transactions may fail during volatile conditions."]
          else if Qgtb numSlippage 5 then
            ["⚠️  High slippage tolerance. You may receive less favorable pricing."]
          else if Qgtb numSlippage 2 then
            ["💡 Moderate slippage tolerance. Good for volatile market conditions."]
          else [] in
        {| sl_isValid := true;
           slippage := Some numSlippage;
           sl_error := None;
           sl_warnings := some_if_any ws |}
  end.

(** ** assessOperationRisk *)

Inductive Operation : Type := deposit | withdraw | monitor.

Inductive RiskLevel : Type := RISK_LOW | RISK_MEDIUM | RISK_HIGH.

Record RiskAssessment : Type := {
  riskLevel : RiskLevel;
  factors : list string;
  recommendations : list string
}.

Definition risk_eqb (a b : RiskLevel) : bool :=
  match a, b with
  | RISK_LOW, RISK_LOW | RISK_MEDIUM, RISK_MEDIUM | RISK_HIGH, RISK_HIGH => true
  | _, _ => false
  end.

(** [if (amount)]: the amount is given and is not zero. *)
Definition amount_given (a : option Q) : option Q :=
  match a with
  | Some q => if Qeq_bool q 0 then None else Some q
  | None => None
  end.

Definition assessOperationRisk (env : Env) (operation : Operation)
  (amount : option Q) : RiskAssessment :=
  (* amount-based assessment *)
  let '(level1, factors1, recs1) :=
    match amount_given amount with
    | Some a =>
        if Qgtb a 1 then
          (RISK_HIGH, ["Large position size"],
           ["Consider starting with smaller amounts (0.01-0.1 SOL)"])
        else if Qgtb a (1 # 10) then
          (RISK_MEDIUM, ["Moderate position size"],
           ["Monitor position regularly for learning"])
        else (RISK_LOW, [], [])
    | None => (RISK_LOW, [], [])
    end in
  (* operation-specific risks *)
  let '(level2, factors2, recs2) :=
    match operation with
    | deposit =>
        (level1,
         (factors1 ++ ["Impermanent loss risk"; "Smart contract risk"])%list,
         (recs1 ++ ["Understand impermanent loss before depositing";
                    "Only deposit funds you can afford to lose";
                    "Monitor token price movements"])%list)
    | withdraw =>
        (level1,
         (factors1 ++ ["Price impact risk"; "Timing risk"])%list,
         (recs1 ++ ["Check current pool price before withdrawing";
                    "Consider market conditions"])%list)
    | monitor =>
        (RISK_LOW,
         (factors1 ++ ["Educational opportunity"])%list,
         (recs1 ++ ["Watch for price movements and pool changes";
                    "Learn about liquidity provision mechanics"])%list)
    end in
  (* environment-based adjustments *)
  if negb (testMode env) then
    let level3 := if risk_eqb level2 RISK_LOW then RISK_MEDIUM else level2 in
    let level4 := if risk_eqb level3 RISK_MEDIUM then RISK_HIGH else level3 in
    {| riskLevel := level4;
       factors := (factors2 ++ ["Live mainnet operation"])%list;
       recommendations := recs2 |}
  else
    {| riskLevel := level2; factors := factors2; recommendations := recs2 |}.

End ValidationService.

(** * Scenarios *)

Module Scenario.

Import TransactionService.

(** The defaults of environment.ts: MAX_RETRIES = 3, RETRY_BASE_DELAY_MS = 1000. *)
Definition default_env : Env :=
  {| maxRetries := 3; retryBaseDelayMs := 1000%Q |}.

Definition no_options : Options :=
  {| skipPreflight := false; opt_maxRetries := None; skipConfirmation := false |}.

Definition two_retries : Options :=
  {| skipPreflight := false; opt_maxRetries := Some 2; skipConfirmation := false |}.

Definition clean_simulation : Exc SimulatedTransactionResponse :=
  Ok {| err := Null; logs := Some []; unitsConsumed := Some 5000 |}.

(** The transaction lands and its first instruction fails with a custom
    program error. *)
Definition landed_with_error : Network :=
  {| simulate_rpc := clean_simulation;
     send_rpc := Ok "5VERv8NMvzbJMEkV8xnrLkEaWRtSz9CosKDYjCJjBRnb";
     blockhash_rpc := Ok tt;
     confirm_rpc := Ok (Obj [("InstructionError", Arr [Num 0; Obj [("Custom", Num 6001)]])]);
     random := 0%Q |}.

(** The transaction is sent and its blockhash expires before it lands. *)
Definition expired : Network :=
  {| simulate_rpc := clean_simulation;
     send_rpc := Ok "5VERv8NMvzbJMEkV8xnrLkEaWRtSz9CosKDYjCJjBRnb";
     blockhash_rpc := Ok tt;
     confirm_rpc := Throw (Err "TransactionExpiredBlockheightExceededError"
                               "block height exceeded");
     random := 0%Q |}.

(** The simulation reports a failing instruction. *)
Definition rejected_by_simulation : Network :=
  {| simulate_rpc :=
       Ok {| err := Obj [("InstructionError", Arr [Num 0; Obj [("Custom", Num 1)]])];
             logs := Some ["Program log: insufficient lamports"];
             unitsConsumed := None |};
     send_rpc := Ok "5VERv8NMvzbJMEkV8xnrLkEaWRtSz9CosKDYjCJjBRnb";
     blockhash_rpc := Ok tt;
     confirm_rpc := Ok Null;
     random := (1 # 4)%Q |}.

(** Everything goes well. *)
Definition healthy : Network :=
  {| simulate_rpc := clean_simulation;
     send_rpc := Ok "5VERv8NMvzbJMEkV8xnrLkEaWRtSz9CosKDYjCJjBRnb";
     blockhash_rpc := Ok tt;
     confirm_rpc := Ok Null;
     random := (1 # 4)%Q |}.

Definition fire_and_forget : Options :=
  {| skipPreflight := true; opt_maxRetries := Some 0; skipConfirmation := true |}.

Definition negative_retries : Options :=
  {| skipPreflight := false; opt_maxRetries := Some (-1); skipConfirmation := false |}.

End Scenario.

(** * Properties of the error classifier *)

Section ErrorClassifier.

Import ErrorHandler.

(** A message that reaches the classifier as a string is always classified. *)
Lemma classify_string (c : ErrorCategory) (s : string) :
  getErrorInfo c (Str s) = Ok (error_info c (toLowerCase s) (Str s)).
Proof. reflexivity. Qed.

Lemma extractErrorMessage_string (s : string) :
  extractErrorMessage (Str s) = Ok (Str s).
Proof. reflexivity. Qed.

Lemma extractErrorMessage_Error (name msg : string) :
  extractErrorMessage (Err name msg) = Ok (Str msg).
Proof. reflexivity. Qed.

(** Strings, [Error] instances, [null], [undefined], numbers and booleans
    are all classified: [handleError] returns on them. *)
Lemma handleError_returns_on_primitives (error : value) :
  match error with
  | Arr _ | Obj _ => True
  | _ => exists info, handleError error = Ok info
  end.
Proof.
  destruct error as [| |b|n|s|xs|fs|name msg]; try exact I;
    unfold handleError, extractErrorMessage; cbn;
    rewrite ?andb_false_r; cbn; eexists; reflexivity.
Qed.

Example classify_slippage :
  exists info,
    handleError (Str "slippage tolerance exceeded") = Ok info /\
    category info = SLIPPAGE /\ severity info = MEDIUM /\ retryable info = true.
Proof. eexists; repeat split. Qed.

Example classify_rpc_object :
  extractErrorMessage (Obj [("code", Num (-32002)); ("message", Str "Blockhash not found")])
  = Ok (Str "RPC Error -32002: Blockhash not found").
Proof. reflexivity. Qed.

Example classify_plain_object :
  extractErrorMessage (Obj [("status", Num 500); ("detail", Undefined); ("tags", Arr [Str "a"; Null])])
  = Ok (Str (JS.toStr_opt (JS.JSON_stringify
               (Obj [("status", Num 500); ("tags", Arr [Str "a"; Null])])))).
Proof. reflexivity. Qed.

(** [extractErrorMessage] throws only when it cannot print the [code] or the
    [message] of an error object. *)
Lemma extractErrorMessage_returns (error : value) :
  stringifiable (get_opt error "code") = true ->
  stringifiable (get_opt error "message") = true ->
  exists v, extractErrorMessage error = Ok v.
Proof.
  intros Hcode Hmsg. unfold extractErrorMessage.
  destruct error as [| |b|n|s|xs|fs|name msg]; cbn;
    rewrite ?andb_false_r; cbn; eauto.
  cbn [get_opt prop] in Hcode, Hmsg.
  set (ie := match lookup "InstructionError" fs with
             | Some x => x | None => Undefined end).
  set (code := match lookup "code" fs with Some x => x | None => Undefined end) in *.
  set (m := match lookup "message" fs with Some x => x | None => Undefined end) in *.
  set (cause := match lookup "cause" fs with Some x => x | None => Undefined end).
  destruct (truthy ie); eauto.
  destruct (truthy code && truthy m).
  { unfold template. rewrite Hcode, Hmsg. cbn. eauto. }
  destruct cause; cbn; eauto;
    repeat match goal with
           | |- context [if ?x then _ else _] => destruct x
           end; eauto.
Qed.

(** [handleError] returns exactly when the extracted message is a string. *)
Lemma handleError_returns_iff (error : value) :
  (exists info, handleError error = Ok info) <->
  (exists s, extractErrorMessage error = Ok (Str s)).
Proof.
  unfold handleError. split.
  - intros [info H].
    destruct (extractErrorMessage error) as [m|e]; [|discriminate].
    destruct m; try discriminate. eauto.
  - intros [s ->]. eexists; reflexivity.
Qed.

(** A string on which no pattern matches falls to the default branch. *)
Lemma handleError_default (s : string) :
  categorize (toLowerCase s) = UNKNOWN ->
  exists info,
    handleError (Str s) = Ok info /\
    category info = UNKNOWN /\ severity info = LOW /\ retryable info = true.
Proof.
  intros Hc. unfold handleError, categorizeError, determineSeverity, getErrorInfo.
  cbn. rewrite Hc. cbn. eexists; repeat split.
Qed.

(** C3 (the code departs from the claim): [handleError] is not total.  On
    the structured object [{ cause: { message: 42 } }] the function
    [extractErrorMessage] hands back the number 42 where a string is
    declared, and the call [errorMessage.toLowerCase()] in [categorizeError]
    raises a TypeError instead of returning a classification. *)
Theorem handleError_raises_on_nonstring_cause_message :
  handleError (Obj [("cause", Obj [("message", Num 42)])])
  = Throw (TypeError "errorMessage.toLowerCase is not a function").
Proof. reflexivity. Qed.

(** The retryable flag of a classification depends on its category only. *)
Lemma retryable_by_category (c : ErrorCategory) (lower : string) (msg : value) :
  retryable (error_info c lower msg) =
  match c with
  | WALLET | VALIDATION | CONFIGURATION => false
  | _ => true
  end.
Proof.
  destruct c; cbn; try reflexivity;
    destruct (includes _ lower); reflexivity.
Qed.

Lemma category_of_error_info (c : ErrorCategory) (lower : string) (msg : value) :
  category (error_info c lower msg) = c.
Proof.
  destruct c; cbn; try reflexivity;
    destruct (includes _ lower); reflexivity.
Qed.

(** C4 (as stated, refuted): an error of category WALLET is classified as
    non-retryable although its category is neither CONFIGURATION nor
    VALIDATION and its severity is not CRITICAL. *)
Lemma wallet_error_not_retryable :
  exists info,
    handleError (Str "account not found") = Ok info /\
    category info = WALLET /\
    severity info = LOW /\
    retryable info = false /\
    shouldRetry info 1 3 = false.
Proof. eexists; repeat split. Qed.

(** C4 (amended): for every classification produced by [handleError], the
    categories CONFIGURATION, VALIDATION and WALLET are non-retryable, both
    in the [retryable] flag and for [shouldRetry]; every other category has
    [retryable = true], and [shouldRetry] accepts it while attempts remain
    unless the severity is CRITICAL. *)
Theorem retry_policy_by_category (error : value) (info : ErrorInfo)
  (attempt maxRetries : Z) :
  handleError error = Ok info ->
  match category info with
  | CONFIGURATION | VALIDATION | WALLET =>
      retryable info = false /\ shouldRetry info attempt maxRetries = false
  | _ =>
      retryable info = true /\
      shouldRetry info attempt maxRetries =
        (attempt <? maxRetries) && negb (severity_eqb (severity info) CRITICAL)
  end.
Proof.
  unfold handleError, categorizeError, determineSeverity, getErrorInfo.
  destruct (extractErrorMessage error) as [m|e]; cbn; [|discriminate].
  destruct m as [| |b|n|s|xs|fs|name msg]; cbn; try discriminate.
  set (lower := toLowerCase s). set (m := Str s).
  intros H; injection H as <-.
  rewrite category_of_error_info.
  pose proof (retryable_by_category (categorize lower) lower m) as Hr.
  unfold shouldRetry. rewrite category_of_error_info.
  replace (attempt >=? maxRetries) with (negb (attempt <? maxRetries))
    by (rewrite Z.geb_leb, Z.ltb_antisym, negb_involutive; reflexivity).
  destruct (categorize lower); rewrite Hr; cbn; split; try reflexivity;
    try (destruct (attempt <? maxRetries); reflexivity);
    destruct (attempt <? maxRetries); cbn; try reflexivity;
    destruct (severity _); reflexivity.
Qed.

Lemma retry_policy_by_category_witness :
  exists info,
    handleError (Str "network critical") = Ok info /\
    retryable info = true /\
    shouldRetry info 1 3 = false.
Proof.
  eexists. split; [reflexivity|].
  exact (retry_policy_by_category (Str "network critical") _ 1 3 eq_refl).
Defined.

End ErrorClassifier.

(** * Properties of the transaction service *)

Section Simulation.

Import TransactionService.





(** A raised transport error is reported in the result. *)
Lemma simulateTransaction_transport_error (e : value) :
  stringifiable e = true ->
  simulateTransaction (Throw e) =
  Ok {| sim_success := false;
        sim_error := Some ("Simulation failed: " ++ toStr e);
        sim_logs := None |}.
Proof.
  intros H. unfold simulateTransaction, template. cbn. rewrite H. reflexivity.
Qed.




End Simulation.

Section RetryDelay.

Import TransactionService.

(** C5 (as stated, refuted): with a base delay of 10 s the third delay is
    the ceiling of 30 s, below [base * 2^(3-1)] = 40 s. *)
Lemma delay_below_exponential_when_capped :
  let env := {| maxRetries := 4; retryBaseDelayMs := 10000%Q |} in
  (calculateRetryDelay env 0%Q 3 == 30000)%Q /\
  (exponentialDelay env 3 == 40000)%Q /\
  ~ (exponentialDelay env 3 <= calculateRetryDelay env 0%Q 3)%Q.
Proof.
  cbv zeta. repeat split; try reflexivity.
  intros H. vm_compute in H. apply H. reflexivity.
Qed.

(** C5 (amended): with [base = env.retryBaseDelayMs], the fixed ceiling of
    30000 ms and a jitter [random * 1000] for [random] in [0, 1), the delay
    is [min (base * 2^(attempt-1) + jitter) 30000]; it never exceeds the
    ceiling nor [base * 2^(attempt-1) + 1000], it is at least
    [min (base * 2^(attempt-1)) 30000], and it is at least
    [base * 2^(attempt-1)] when that value does not exceed the ceiling. *)
Theorem retry_delay_bounds (env : Env) (random : Q) (attempt : Z) :
  (0 <= random)%Q -> (random < 1)%Q ->
  let d := calculateRetryDelay env random attempt in
  let e := exponentialDelay env attempt in
  (d == Qmin (e + random * 1000) 30000)%Q /\
  (d <= 30000)%Q /\
  (d <= e + 1000)%Q /\
  (Qmin e 30000 <= d)%Q /\
  ((e <= 30000)%Q -> (e <= d)%Q).
Proof.
  intros H0 H1 d e. subst d. unfold calculateRetryDelay, jitter, maxDelay.
  fold e.
  destruct (Q.min_spec (e + random * 1000)%Q 30000%Q) as [[Hlt Heq]|[Hle Heq]];
    destruct (Q.min_spec e 30000%Q) as [[Hlt' Heq']|[Hle' Heq']];
    rewrite Heq, Heq'; repeat split; try lra; try reflexivity.
Qed.

Lemma retry_delay_bounds_witness :
  let env := {| maxRetries := 3; retryBaseDelayMs := 1000%Q |} in
  (calculateRetryDelay env (1 # 2) 2 <= 30000)%Q /\
  (exponentialDelay env 2 <= calculateRetryDelay env (1 # 2) 2)%Q.
Proof.
  cbv zeta.
  pose proof (retry_delay_bounds {| maxRetries := 3; retryBaseDelayMs := 1000%Q |}
                (1 # 2) 2 ltac:(lra) ltac:(lra)) as H.
  cbv zeta in H. destruct H as (_ & Hcap & _ & _ & Hlow).
  split; [exact Hcap|]. apply Hlow. vm_compute. discriminate.
Defined.

End RetryDelay.

Section RetryLoop.

Import TransactionService.

Variable env : Env.
Variable transaction : TransactionKind.
Variable options : Options.

Lemma attempts_app (t1 t2 : list Event) :
  attempts (t1 ++ t2) = (attempts t1 ++ attempts t2)%list.
Proof.
  induction t1 as [|ev t1 IH]; [reflexivity|].
  destruct ev; cbn; rewrite IH; reflexivity.
Qed.

Lemma submissions_app (t1 t2 : list Event) :
  submissions (t1 ++ t2) = (submissions t1 + submissions t2)%nat.
Proof.
  unfold submissions. rewrite filter_app, length_app. reflexivity.
Qed.

Ltac run_attempt :=
  unfold attempt_body, sendTransaction, confirmTransaction, call, bindE,
    try_catchE, ret, throw.

Ltac split_cases :=
  repeat match goal with
         | |- context [match ?x with _ => _ end] => destruct x eqn:?; cbn
         end.

(** Every iteration logs its number once, before anything else. *)
Lemma attempt_body_attempts (net : Network) (attempt : Z) :
  attempts (fst (attempt_body transaction options net attempt)) = [attempt].
Proof.
  run_attempt.
  destruct (skipPreflight options); cbn;
    [|destruct (simulateTransaction (simulate_rpc net)) as [[ok se l]|se]; cbn;
      [destruct ok; cbn|]];
    try reflexivity;
    (destruct (send_rpc net) as [sig|e]; cbn; [|reflexivity]);
    (destruct (skipConfirmation options); cbn; [reflexivity|]);
    (destruct (blockhash_rpc net) as [u|e]; cbn; [|reflexivity]);
    (destruct (confirm_rpc net) as [v|e]; cbn; [|reflexivity]);
    destruct (truthy v); reflexivity.
Qed.



(** A landed-but-failed confirmation makes the iteration throw the same
    error as a timeout, after exactly one submission. *)
Lemma attempt_body_landed_but_failed (net : Network) (attempt : Z) :
  skipConfirmation options = false ->
  simulation_passes options net ->
  landed_but_failed net ->
  exists t,
    attempt_body transaction options net attempt =
      (t, Throw (new_Error "Transaction failed to confirm within timeout")) /\
    submissions t = 1%nat.
Proof.
  intros Hskip Hsim (sig & e & Hsend & Hbh & Hconf & Herr).
  run_attempt. rewrite Hskip, Hsend, Hbh, Hconf. cbn. rewrite Herr. cbn.
  destruct Hsim as [Hpre|(r & Hr & Hok)].
  - rewrite Hpre. cbn. eexists; split; reflexivity.
  - destruct (skipPreflight options); cbn.
    + eexists; split; reflexivity.
    + unfold simulateTransaction. rewrite Hr. cbn. rewrite Hok. cbn.
      eexists; split; reflexivity.
Qed.

Variable net : Z -> Network.
Variable limit : Z.


Lemma retry_loop_submissions_when_landed_failed (remaining : nat) (attempt : Z)
  (lastError : value) :
  skipConfirmation options = false ->
  (forall i, simulation_passes options (net i)) ->
  (forall i, landed_but_failed (net i)) ->
  let run := retry_loop env transaction options net limit remaining
                        attempt lastError in
  submissions (fst run) = remaining /\ success (snd run) = false.
Proof.
  intros Hskip Hsim Hland. revert attempt lastError.
  induction remaining as [|remaining IH]; intros attempt lastError;
    cbn [retry_loop].
  - split; reflexivity.
  - destruct (attempt_body_landed_but_failed (net attempt) attempt Hskip
                (Hsim _) (Hland _)) as (t & Hrun & Hone).
    rewrite Hrun.
    specialize (IH (attempt + 1)
                  (new_Error "Transaction failed to confirm within timeout")).
    cbv zeta in IH.
    destruct (retry_loop env transaction options net limit remaining
                         (attempt + 1) _) as [t' result].
    cbn [fst snd] in *. destruct IH as [IHn IHs].
    rewrite !submissions_app, Hone, IHn. split; [|exact IHs].
    destruct (attempt <? limit); reflexivity.
Qed.


End RetryLoop.

Section SubmissionEngine.

Import TransactionService Scenario.

(** C1 (as stated, refuted): every attempt of this run lands and fails with
    an execution error, and the same transaction is submitted three times. *)
Lemma landed_failure_is_resubmitted :
  landed_but_failed landed_with_error /\
  submissions (fst (sendAndConfirmTransaction default_env Versioned no_options
                      (fun _ => landed_with_error))) = 3%nat.
Proof.
  split; [|reflexivity].
  do 2 eexists. repeat split.
Qed.

(** C1 (amended): a confirmation that reports a landed-but-failed
    transaction is handled like any unconfirmed one: the attempt throws and
    the loop goes on.  In a run whose attempts all land and fail, the
    transaction is submitted once per attempt, [maxRetries] times in all,
    and the outcome is a failure. *)
Theorem landed_failure_retried_until_exhausted (env : Env)
  (transaction : TransactionKind) (options : Options) (net : Z -> Network) :
  skipConfirmation options = false ->
  (forall i, simulation_passes options (net i)) ->
  (forall i, landed_but_failed (net i)) ->
  let run := sendAndConfirmTransaction env transaction options net in
  submissions (fst run) = Z.to_nat (effective_maxRetries env options) /\
  success (snd run) = false.
Proof.
  intros Hskip Hsim Hland. unfold sendAndConfirmTransaction.
  apply retry_loop_submissions_when_landed_failed; assumption.
Qed.

Lemma landed_failure_retried_until_exhausted_witness :
  submissions (fst (sendAndConfirmTransaction default_env Legacy two_retries
                      (fun _ => landed_with_error))) = 2%nat /\
  success (snd (sendAndConfirmTransaction default_env Legacy two_retries
                  (fun _ => landed_with_error))) = false.
Proof.
  apply (landed_failure_retried_until_exhausted default_env Legacy two_retries
           (fun _ => landed_with_error)).
  - reflexivity.
  - intros i. right. eexists. split; reflexivity.
  - intros i. do 2 eexists. repeat split.
Defined.




End SubmissionEngine.

(** * Properties of the pool data cache *)

Section PoolCache.

Import RaydiumService.

Variable PoolInfo : Type.

(** C6 (as stated, refuted): an entry fetched at time 1000 is read at time
    31000, so that [now - fetchedAt = ttl]; the cached value is not returned
    and the loader is invoked. *)
Lemma entry_at_ttl_is_refetched :
  let s := {| poolDataCache := {| data := Some "cached"; timestamp := 1000 |};
              fetches := 0; in_flight := 0 |} in
  31000 - timestamp (poolDataCache s) <= CACHE_DURATION_MS /\
  fst (getPoolInfo string s 31000 (Ok "fresh")) = Ok "fresh" /\
  fetches (snd (getPoolInfo string s 31000 (Ok "fresh"))) = 1%nat.
Proof. cbv zeta. repeat split. discriminate. Qed.

(** C6 (amended): a cached entry is served, without a call of the loader,
    while [now - fetchedAt] is strictly below the duration of 30000 ms; from
    [now - fetchedAt = 30000] on, the loader is invoked. *)
Theorem cached_entry_served_while_fresh (s : Service PoolInfo) (now : Z)
  (d : PoolInfo) (fetchFromDirectRPC : Exc PoolInfo) :
  data (poolDataCache s) = Some d ->
  (now - timestamp (poolDataCache s) < CACHE_DURATION_MS ->
   getPoolInfo PoolInfo s now fetchFromDirectRPC = (Ok d, s)) /\
  (CACHE_DURATION_MS <= now - timestamp (poolDataCache s) ->
   fetches (snd (getPoolInfo PoolInfo s now fetchFromDirectRPC)) = S (fetches s)).
Proof.
  intros Hd. unfold getPoolInfo, enter, cached. rewrite Hd. split; intros H.
  - destruct (Z.ltb_spec (now - timestamp (poolDataCache s)) CACHE_DURATION_MS);
      [reflexivity|lia].
  - destruct (Z.ltb_spec (now - timestamp (poolDataCache s)) CACHE_DURATION_MS);
      [lia|].
    destruct fetchFromDirectRPC; reflexivity.
Qed.

(** A caller that finds no live entry starts a load of its own. *)
Lemma enter_miss (s : Service PoolInfo) (now : Z) :
  cached PoolInfo (poolDataCache s) now = None ->
  enter PoolInfo s now =
    (Awaiting now,
     {| poolDataCache := poolDataCache s;
        fetches := S (fetches s);
        in_flight := S (in_flight s) |}).
Proof. intros H. unfold enter. rewrite H. reflexivity. Qed.

(** C7 (amended): there is no single-flight.  Each caller that finds no live
    entry calls the loader itself, whether or not a load is already in
    flight: callers that arrive before any load settles are all left
    suspended on a load of their own, and the number of loads in flight
    grows by the number of callers. *)
Theorem every_miss_starts_a_load (s : Service PoolInfo) (arrivals : list Z) :
  (forall now, In now arrivals -> cached PoolInfo (poolDataCache s) now = None) ->
  fst (arrive PoolInfo s arrivals) = map Awaiting arrivals /\
  in_flight (snd (arrive PoolInfo s arrivals)) =
    (in_flight s + List.length arrivals)%nat /\
  fetches (snd (arrive PoolInfo s arrivals)) =
    (fetches s + List.length arrivals)%nat /\
  poolDataCache (snd (arrive PoolInfo s arrivals)) = poolDataCache s.
Proof.
  revert s. induction arrivals as [|now rest IH]; intros s Hmiss; cbn [arrive].
  - cbn. repeat split; lia.
  - rewrite (enter_miss s now) by (apply Hmiss; left; reflexivity).
    set (s1 := {| poolDataCache := poolDataCache s;
                  fetches := S (fetches s);
                  in_flight := S (in_flight s) |}).
    specialize (IH s1).
    destruct (arrive PoolInfo s1 rest) as [cs s2]. cbn [fst snd] in *.
    destruct IH as (Hc & Hf & Hn & Hp).
    { intros t Ht. apply Hmiss. right. exact Ht. }
    subst s1. cbn [in_flight fetches poolDataCache] in *.
    rewrite Hc, Hf, Hn, Hp. cbn [map List.length]. repeat split; lia.
Qed.

(** Arrivals are steps of the event loop. *)
Lemma reachable_arrive (s : Service PoolInfo) (calls : list (Call PoolInfo))
  (arrivals : list Z) :
  reachable PoolInfo (s, calls) ->
  reachable PoolInfo (snd (arrive PoolInfo s arrivals),
                      (calls ++ fst (arrive PoolInfo s arrivals))%list).
Proof.
  revert s calls. induction arrivals as [|now rest IH]; intros s calls Hr;
    cbn [arrive].
  - cbn. rewrite app_nil_r. exact Hr.
  - destruct (enter PoolInfo s now) as [c s1] eqn:He.
    specialize (IH s1 (calls ++ [c])%list).
    destruct (arrive PoolInfo s1 rest) as [cs s2]. cbn [fst snd] in *.
    replace (calls ++ c :: cs)%list with ((calls ++ [c]) ++ cs)%list
      by (rewrite <- app_assoc; reflexivity).
    apply IH. eapply reach_step; [exact Hr|].
    apply step_enter with (now := now). exact He.
Qed.

End PoolCache.

(** C7 (as stated, refuted): two callers that arrive at times 0 and 5 on an
    empty cache are both suspended on a load of their own; two loads for the
    same key are in flight at once. *)
Lemma two_loads_in_flight :
  exists st,
    RaydiumService.reachable string st /\
    snd st = [RaydiumService.Awaiting 0; RaydiumService.Awaiting 5] /\
    RaydiumService.in_flight (fst st) = 2%nat.
Proof.
  eexists. split.
  - exact (reachable_arrive string (RaydiumService.initial string) [] [0; 5]
             (RaydiumService.reach_initial string)).
  - split; reflexivity.
Qed.

Lemma cached_entry_served_while_fresh_witness :
  let s := {| RaydiumService.poolDataCache :=
                {| RaydiumService.data := Some "cached";
                   RaydiumService.timestamp := 1000 |};
              RaydiumService.fetches := 1;
              RaydiumService.in_flight := 0 |} in
  RaydiumService.getPoolInfo string s 30999 (Ok "fresh") = (Ok "cached", s).
Proof.
  cbv zeta.
  apply (proj1 (cached_entry_served_while_fresh string
                  {| RaydiumService.poolDataCache :=
                       {| RaydiumService.data := Some "cached";
                          RaydiumService.timestamp := 1000 |};
                     RaydiumService.fetches := 1;
                     RaydiumService.in_flight := 0 |}
                  30999 "cached" (Ok "fresh") eq_refl)).
  reflexivity.
Defined.

Lemma every_miss_starts_a_load_witness :
  RaydiumService.in_flight
    (snd (RaydiumService.arrive string (RaydiumService.initial string) [0; 5; 9]))
  = 3%nat.
Proof.
  apply (fun H => proj1 (proj2 (every_miss_starts_a_load string
                                  (RaydiumService.initial string) [0; 5; 9] H))).
  intros now _. reflexivity.
Defined.

(** * Properties of the withdrawal flow *)

Section Withdrawal.

Import TransactionService RaydiumSdk.

Variable PoolInfo : Type.


(** A balance of 10^10 LP tokens makes [new BN] fail: the withdrawal stops
    before the remove-liquidity operation is called. *)
Example withdraw_rejects_large_balance
  (pool : PoolInfo) (removeLiquidity : RemoveLiquidityParams PoolInfo -> Exc unit)
  (execute : Exc string) :
  withdrawLiquidity PoolInfo
    (Ok (Some {| lpTokenBalance := 10000000000; valueUSD := 0;
                 tokenAAmount := 0; tokenBAmount := 0 |}))
    (Ok pool) removeLiquidity execute
  = ([], failed (new_Error "Assertion failed")).
Proof. reflexivity. Qed.

End Withdrawal.

(** * Further properties: strings *)

Section StringFacts.

Lemma prefix_of_longer_pattern (p q s : string) :
  String.prefix (p ++ q) s = true -> String.prefix p s = true.
Proof.
  revert s. induction p as [|a p IH]; intros s H; [destruct s; reflexivity|].
  destruct s as [|b s]; cbn in *; [discriminate|].
  destruct (ascii_dec a b); [apply IH; exact H|discriminate].
Qed.

Lemma prefix_app_right (p a b : string) :
  String.prefix p a = true -> String.prefix p (a ++ b) = true.
Proof.
  revert a.
  induction p as [|c p IH]; intros a H; [destruct (a ++ b); reflexivity|].
  destruct a as [|d a]; cbn in *; [discriminate|].
  destruct (ascii_dec c d); [apply IH; exact H|discriminate].
Qed.

Lemma includes_unfold (p s : string) :
  includes p s =
  String.prefix p s ||
  match s with EmptyString => false | String _ rest => includes p rest end.
Proof. destruct s; reflexivity. Qed.

(** A message that contains a pattern contains every beginning of it. *)
Lemma includes_shorter_pattern (p q s : string) :
  includes (p ++ q) s = true -> includes p s = true.
Proof.
  induction s as [|c s IH]; cbn [includes]; intros H;
    apply orb_true_iff in H; apply orb_true_iff; destruct H as [H|H].
  - left. eapply prefix_of_longer_pattern; exact H.
  - discriminate.
  - left. eapply prefix_of_longer_pattern; exact H.
  - right. apply IH; exact H.
Qed.

Lemma includes_app_left (p a b : string) :
  includes p a = true -> includes p (a ++ b) = true.
Proof.
  induction a as [|c a IH]; cbn [includes append]; intros H;
    apply orb_true_iff in H; destruct H as [H|H]; try discriminate.
  - destruct p; [|discriminate]. destruct b; reflexivity.
  - apply orb_true_iff. left.
    exact (prefix_app_right p (String c a) b H).
  - apply orb_true_iff. right. apply IH; exact H.
Qed.

Lemma includes_app_right (p a b : string) :
  includes p b = true -> includes p (a ++ b) = true.
Proof.
  intros H. induction a as [|c a IH]; [exact H|].
  cbn [append includes]. apply orb_true_iff. right. exact IH.
Qed.

Lemma lower_char_idempotent (c : ascii) :
  lower_char (lower_char c) = lower_char c.
Proof. destruct c as [[] [] [] [] [] [] [] []]; reflexivity. Qed.

Lemma toLowerCase_idempotent (s : string) :
  toLowerCase (toLowerCase s) = toLowerCase s.
Proof.
  induction s as [|c s IH]; [reflexivity|].
  cbn [toLowerCase]. rewrite lower_char_idempotent, IH. reflexivity.
Qed.

Lemma toLowerCase_app (a b : string) :
  toLowerCase (a ++ b) = toLowerCase a ++ toLowerCase b.
Proof.
  induction a as [|c a IH]; [reflexivity|].
  cbn [append toLowerCase]. rewrite IH. reflexivity.
Qed.

End StringFacts.

(** * Further properties of the error classifier *)

Section ClassifierPriority.

Import ErrorHandler.

Lemma matchesPattern_member (s p : string) (patterns : list string) :
  In p patterns -> includes p s = true -> matchesPattern s patterns = true.
Proof.
  intros Hin Hp. unfold matchesPattern. apply existsb_exists.
  exists p. split; assumption.
Qed.

Lemma handleError_string (s : string) :
  handleError (Str s) =
  Ok (error_info (categorize (toLowerCase s)) (toLowerCase s) (Str s)).
Proof. reflexivity. Qed.

(** The technical details are the only field that keeps the message. *)
Lemma error_info_details (c : ErrorCategory) (lower : string) (m1 m2 : value) :
  let i1 := error_info c lower m1 in
  let i2 := error_info c lower m2 in
  category i1 = category i2 /\ severity i1 = severity i2 /\
  message i1 = message i2 /\ suggestion i1 = suggestion i2 /\
  retryable i1 = retryable i2.
Proof.
  destruct c; cbn; try (repeat split; reflexivity);
    destruct (includes _ lower); repeat split; reflexivity.
Qed.

(** X1: the classification does not depend on the case of the letters
    A-Z: two messages that agree up to letter case receive the same
    category, severity, retryable flag, message and suggestion. *)
Theorem classification_ignores_case (s1 s2 : string) :
  toLowerCase s1 = toLowerCase s2 ->
  exists i1 i2,
    handleError (Str s1) = Ok i1 /\ handleError (Str s2) = Ok i2 /\
    category i1 = category i2 /\ severity i1 = severity i2 /\
    retryable i1 = retryable i2 /\
    message i1 = message i2 /\ suggestion i1 = suggestion i2.
Proof.
  intros H. rewrite !handleError_string, H.
  do 2 eexists. split; [reflexivity|]. split; [reflexivity|].
  destruct (error_info_details (categorize (toLowerCase s2)) (toLowerCase s2)
              (Str s1) (Str s2)) as (Hc & Hs & Hm & Hg & Hr).
  repeat split; assumption.
Qed.

Lemma classification_ignores_case_witness :
  exists i1 i2,
    handleError (Str "RPC Endpoint DOWN") = Ok i1 /\
    handleError (Str "rpc endpoint down") = Ok i2 /\
    category i1 = category i2 /\ severity i1 = severity i2 /\
    retryable i1 = retryable i2 /\
    message i1 = message i2 /\ suggestion i1 = suggestion i2.
Proof.
  exact (classification_ignores_case "RPC Endpoint DOWN" "rpc endpoint down"
           eq_refl).
Defined.

(** X2: the patterns are tried in a fixed order and the first match wins,
    so some patterns can never decide.  A message that contains
    'blockhash expired' (a TRANSACTION pattern) is NETWORK or RPC, because
    'blockhash' is an RPC pattern; a message that contains 'pool info' or
    'pool keys' (RAYDIUM patterns) is never RAYDIUM, because 'pool' is a
    LIQUIDITY pattern. *)
Theorem shadowed_patterns_never_decide (lower : string) :
  (includes "blockhash expired" lower = true ->
   categorize lower = NETWORK \/ categorize lower = RPC) /\
  (includes "pool info" lower = true \/ includes "pool keys" lower = true ->
   categorize lower <> RAYDIUM).
Proof.
  split.
  - intros H.
    assert (Hb : includes "blockhash" lower = true)
      by exact (includes_shorter_pattern "blockhash" " expired" lower H).
    unfold categorize.
    destruct (matchesPattern lower _); [left; reflexivity|].
    rewrite (matchesPattern_member lower "blockhash") by (cbn; auto 10).
    right; reflexivity.
  - intros H.
    assert (Hp : includes "pool" lower = true).
    { destruct H as [H|H].
      - exact (includes_shorter_pattern "pool" " info" lower H).
      - exact (includes_shorter_pattern "pool" " keys" lower H). }
    unfold categorize.
    repeat (match goal with
            | |- (if matchesPattern lower ?ps then _ else _) <> _ =>
                first
                  [ rewrite (matchesPattern_member lower "pool" ps ltac:(cbn; auto 10) Hp)
                  | destruct (matchesPattern lower ps) ]
            end; try discriminate).
Qed.

Lemma shadowed_patterns_never_decide_witness :
  categorize "blockhash expired before landing" = RPC /\
  categorize "could not load pool keys" <> RAYDIUM.
Proof.
  split.
  - destruct (proj1 (shadowed_patterns_never_decide
                       "blockhash expired before landing") eq_refl) as [H|H];
      [discriminate H|exact H].
  - apply (proj2 (shadowed_patterns_never_decide "could not load pool keys")).
    right. reflexivity.
Defined.

End ClassifierPriority.

Section ClassifierInputs.

Import ErrorHandler.

Lemma includes_later_pattern (p q s : string) :
  includes (p ++ q) s = true -> includes q s = true.
Proof.
  assert (Hpre : forall p' s', String.prefix (p' ++ q) s' = true ->
                               includes q s' = true).
  { induction p' as [|a p' IH]; intros s' H.
    - cbn [append] in H. rewrite includes_unfold, H. reflexivity.
    - destruct s' as [|b s']; cbn in H; [discriminate|].
      destruct (ascii_dec a b); [|discriminate].
      cbn [includes]. apply orb_true_iff. right. apply IH. exact H. }
  induction s as [|c s IH]; cbn [includes]; intros H;
    apply orb_true_iff in H; destruct H as [H|H]; try discriminate.
  - exact (Hpre p EmptyString H).
  - exact (Hpre p (String c s) H).
  - apply orb_true_iff. right. apply IH. exact H.
Qed.

(** X3: an object that carries a truthy [InstructionError] is always
    classified (the classifier returns), never further down the list than
    TRANSACTION: the extracted text starts with 'Instruction error', so its
    category is NETWORK, RPC, WALLET or TRANSACTION. *)
Theorem instruction_error_objects_classified (fields : list (string * value)) :
  truthy (prop (Obj fields) "InstructionError") = true ->
  exists info,
    handleError (Obj fields) = Ok info /\
    In (category info) [NETWORK; RPC; WALLET; TRANSACTION].
Proof.
  intros Hie.
  set (text := "Instruction error: " ++
               toStr_opt (JSON_stringify (prop (Obj fields) "InstructionError"))).
  assert (Hx : extractErrorMessage (Obj fields) = Ok (Str text)).
  { unfold extractErrorMessage. cbn [is_string instanceof_Error truthy is_object
      typeof andb get JS.bind]. rewrite Hie. reflexivity. }
  unfold handleError. rewrite Hx.
  change (exists info,
    Ok (error_info (categorize (toLowerCase text)) (toLowerCase text) (Str text))
    = Ok info /\ In (category info) [NETWORK; RPC; WALLET; TRANSACTION]).
  eexists. split; [reflexivity|]. rewrite category_of_error_info.
  assert (Hi : includes "instruction" (toLowerCase text) = true).
  { subst text. rewrite toLowerCase_app. apply includes_app_left. reflexivity. }
  unfold categorize.
  destruct (matchesPattern _ _); [cbn; auto|].
  destruct (matchesPattern _ _); [cbn; auto|].
  destruct (matchesPattern _ _); [cbn; auto|].
  rewrite (matchesPattern_member _ "instruction") by (cbn; auto 10 || exact Hi).
  cbn; auto.
Qed.

Lemma instruction_error_objects_classified_witness :
  exists info,
    handleError (Obj [("InstructionError", Arr [Num 2; Obj [("Custom", Num 6001)]])])
    = Ok info /\
    In (category info) [NETWORK; RPC; WALLET; TRANSACTION].
Proof.
  apply (instruction_error_objects_classified
           [("InstructionError", Arr [Num 2; Obj [("Custom", Num 6001)]])]).
  reflexivity.
Defined.

(** X4: an object with a truthy [code] and [message] (and no
    [InstructionError]), both of which can be converted to a string, is
    reported as 'RPC Error code: message'; whatever the code and the message
    say, its category is NETWORK or RPC and it is retryable. *)
Theorem rpc_error_objects_retryable (fields : list (string * value)) :
  truthy (prop (Obj fields) "InstructionError") = false ->
  truthy (prop (Obj fields) "code") = true ->
  truthy (prop (Obj fields) "message") = true ->
  stringifiable (prop (Obj fields) "code") = true ->
  stringifiable (prop (Obj fields) "message") = true ->
  exists info,
    handleError (Obj fields) = Ok info /\
    (category info = NETWORK \/ category info = RPC) /\
    retryable info = true.
Proof.
  intros Hie Hcode Hmsg Hpc Hpm.
  set (text := "RPC Error " ++ toStr (prop (Obj fields) "code") ++ ": " ++
               toStr (prop (Obj fields) "message")).
  assert (Hx : extractErrorMessage (Obj fields) = Ok (Str text)).
  { unfold extractErrorMessage, template.
    cbn [is_string instanceof_Error truthy is_object typeof andb get JS.bind].
    rewrite Hie, Hcode, Hmsg, Hpc, Hpm. reflexivity. }
  unfold handleError. rewrite Hx.
  change (exists info,
    Ok (error_info (categorize (toLowerCase text)) (toLowerCase text) (Str text))
    = Ok info /\ (category info = NETWORK \/ category info = RPC) /\
    retryable info = true).
  eexists. split; [reflexivity|].
  rewrite category_of_error_info, retryable_by_category.
  assert (Hi : includes "rpc" (toLowerCase text) = true).
  { subst text. rewrite toLowerCase_app. apply includes_app_left. reflexivity. }
  unfold categorize.
  destruct (matchesPattern _ _); [auto|].
  rewrite (matchesPattern_member _ "rpc") by (cbn; auto 10 || exact Hi).
  auto.
Qed.

Lemma rpc_error_objects_retryable_witness :
  exists info,
    handleError (Obj [("code", Num 401); ("message", Str "Unauthorized: invalid api key")])
    = Ok info /\
    (category info = NETWORK \/ category info = RPC) /\
    retryable info = true.
Proof.
  apply (rpc_error_objects_retryable
           [("code", Num 401); ("message", Str "Unauthorized: invalid api key")]);
    reflexivity.
Defined.

(** X5: the two entry points of the classifier disagree on pool errors.  For
    a message that mentions 'pool not found' or 'invalid pool' (and none of
    the two earlier special cases), [handleCommonDefiErrors] answers RAYDIUM,
    severity HIGH, not retryable, while [handleError] never answers RAYDIUM
    for it and marks it retryable unless its category is WALLET. *)
Theorem pool_errors_two_classifications (s : string) :
  let lower := toLowerCase s in
  includes "insufficient funds" lower && includes "0x1" lower = false ->
  includes "slippage tolerance exceeded" lower = false ->
  includes "pool not found" lower = true \/ includes "invalid pool" lower = true ->
  exists special general,
    handleCommonDefiErrors (Str s) = Ok special /\
    category special = RAYDIUM /\ severity special = HIGH /\
    retryable special = false /\
    handleError (Str s) = Ok general /\
    category general <> RAYDIUM /\
    (retryable general = true \/ category general = WALLET).
Proof.
  intros lower H1 H2 H3.
  assert (Hpool : includes "pool" lower = true).
  { destruct H3 as [H|H].
    - exact (includes_shorter_pattern "pool" " not found" lower H).
    - exact (includes_later_pattern "invalid " "pool" lower H). }
  assert (H3' : includes "pool not found" lower || includes "invalid pool" lower = true)
    by (apply orb_true_iff; exact H3).
  do 2 eexists.
  split.
  { unfold handleCommonDefiErrors. cbn [extractErrorMessage is_string JS.bind
      call_toLowerCase]. fold lower. rewrite H1, H2, H3'. reflexivity. }
  split; [reflexivity|]. split; [reflexivity|]. split; [reflexivity|].
  split; [rewrite handleError_string; reflexivity|]. fold lower.
  rewrite category_of_error_info, retryable_by_category.
  unfold categorize.
  repeat (match goal with
          | |- context [if matchesPattern lower ?ps then _ else _] =>
              first
                [ rewrite (matchesPattern_member lower "pool" ps ltac:(cbn; auto 10) Hpool)
                | destruct (matchesPattern lower ps) ]
          end; try (split; [discriminate|auto])).
Qed.

Lemma pool_errors_two_classifications_witness :
  exists special general,
    handleCommonDefiErrors (Str "Pool not found on chain") = Ok special /\
    category special = RAYDIUM /\ severity special = HIGH /\
    retryable special = false /\
    handleError (Str "Pool not found on chain") = Ok general /\
    category general <> RAYDIUM /\
    (retryable general = true \/ category general = WALLET).
Proof.
  apply (pool_errors_two_classifications "Pool not found on chain");
    [reflexivity|reflexivity|left; reflexivity].
Defined.

End ClassifierInputs.

(** * Further properties of the transaction service *)

Section ParseTransactionError.

Import TransactionService.

(** X6: [parseTransactionError] raises exactly when the error is an object
    whose [InstructionError] is an array [index, detail] such that [detail]
    is [null] (the test [typeof instructionError === 'object'] lets [null]
    through to the [in] operator), or [index] cannot be converted to a
    string, or [detail] is an object whose [Custom] cannot be.  Everything
    else is rendered as a string. *)
Theorem parseTransactionError_throws_iff (error : value) :
  (exists e, parseTransactionError error = Throw e) <->
  (exists fields items,
      error = Obj fields /\
      lookup "InstructionError" fields = Some (Arr items) /\
      (nth 1 items Undefined = Null \/
       stringifiable (nth 0 items Undefined) = false \/
       exists detail custom,
         nth 1 items Undefined = Obj detail /\
         lookup "Custom" detail = Some custom /\
         stringifiable custom = false)).
Proof.
  split.
  - intros [e H]. unfold parseTransactionError in H.
    destruct error as [| |b|n|s|xs|fs|name msg]; cbn in H;
      try discriminate;
      try (destruct b; discriminate);
      try (destruct (negb (n =? 0)); discriminate).
    + rewrite andb_false_r in H. discriminate.
    + destruct (lookup "InstructionError" fs) as [v|] eqn:Hl; cbn in H;
        [|discriminate].
      destruct v as [| |b|n|s|items|fs'|name msg]; cbn in H; try discriminate.
      exists fs, items. split; [reflexivity|]. split; [exact Hl|].
      unfold template in H.
      destruct (stringifiable (nth 0 items Undefined)) eqn:Hindex; [|auto].
      destruct (nth 1 items Undefined) as [| |b|n|s|items'|detail|name msg] eqn:Hn;
        cbn in H; try discriminate.
      * left. reflexivity.
      * destruct (existsb _ _); cbn in H; discriminate.
      * destruct (lookup "Custom" detail) as [custom|] eqn:Hc; cbn in H;
          [|discriminate].
        destruct (stringifiable custom) eqn:Hcustom; [discriminate|].
        right. right. exists detail, custom. auto.
  - intros (fields & items & -> & Hl & Hwhy).
    unfold parseTransactionError, template. cbn. rewrite Hl. cbn.
    destruct Hwhy as [Hn|[Hindex|(detail & custom & Hn & Hc & Hcustom)]].
    + rewrite Hn. cbn. eexists. reflexivity.
    + rewrite Hindex.
      destruct (nth 1 items Undefined) as [| |b|n|s|items'|detail|name msg];
        cbn; try (eexists; reflexivity).
      * destruct (existsb _ _); cbn; eexists; reflexivity.
      * destruct (lookup "Custom" detail); cbn; eexists; reflexivity.
    + rewrite Hn. cbn. rewrite Hc. cbn. rewrite Hcustom.
      destruct (stringifiable (nth 0 items Undefined)); cbn;
        eexists; reflexivity.
Qed.

Lemma parseTransactionError_throws_iff_witness :
  (exists e,
      parseTransactionError (Obj [("InstructionError", Arr [Num 0; Null])]) = Throw e) /\
  (exists e,
      parseTransactionError
        (Obj [("InstructionError", Arr [Obj [("toString", Num 42)]; Str "x"])])
      = Throw e).
Proof.
  split.
  - apply (proj2 (parseTransactionError_throws_iff
                    (Obj [("InstructionError", Arr [Num 0; Null])]))).
    exists [("InstructionError", Arr [Num 0; Null])], [Num 0; Null].
    repeat split. left. reflexivity.
  - apply (proj2 (parseTransactionError_throws_iff
                    (Obj [("InstructionError",
                           Arr [Obj [("toString", Num 42)]; Str "x"])]))).
    exists [("InstructionError", Arr [Obj [("toString", Num 42)]; Str "x"])],
           [Obj [("toString", Num 42)]; Str "x"].
    repeat split. right. left. reflexivity.
Defined.

(** X7: [estimateTransactionFee] returns an estimate, and does not raise,
    as long as the value that the RPC call raises, if it raises, can be
    converted to a string for the log line.  The total is the base fee plus
    the priority fee; the base fee is the fee the RPC reports, except that a
    reported fee of 0, a null fee and a failed call all give 5000. *)
Theorem estimateTransactionFee_fallback (priority : Z) (rpc : Exc (option Z)) :
  raises_printable rpc ->
  exists r,
    estimateTransactionFee priority rpc = Ok r /\
    total r = baseFee r + priority /\
    priorityFee r = priority /\
    baseFee r <> 0 /\
    baseFee r = match rpc with
                | Ok (Some v) => if v =? 0 then 5000 else v
                | _ => 5000
                end.
Proof.
  intros Hprint. unfold estimateTransactionFee.
  destruct rpc as [[v|]|e]; cbn [try_catch JS.bind].
  - eexists; split; [reflexivity|]. cbn [total baseFee priorityFee].
    repeat split; try lia. destruct (Z.eqb_spec v 0); lia.
  - eexists; split; [reflexivity|]. cbn [total baseFee priorityFee].
    repeat split; lia.
  - cbn in Hprint. unfold template. rewrite Hprint. cbn [JS.bind].
    eexists; split; [reflexivity|]. cbn [total baseFee priorityFee].
    repeat split; lia.
Qed.

Lemma estimateTransactionFee_fallback_witness :
  exists r,
    estimateTransactionFee 1000 (Throw (new_Error "fetch failed")) = Ok r /\
    total r = baseFee r + 1000 /\
    priorityFee r = 1000 /\
    baseFee r <> 0 /\
    baseFee r = 5000.
Proof.
  apply (estimateTransactionFee_fallback 1000 (Throw (new_Error "fetch failed"))).
  reflexivity.
Defined.

(** When the raised value cannot be converted, the handler itself raises. *)
Example estimateTransactionFee_raises_on_unprintable_error (priority : Z) :
  estimateTransactionFee priority (Throw (Obj [("toString", Num 42)]))
  = Throw (TypeError "Cannot convert object to primitive value").
Proof. reflexivity. Qed.

End ParseTransactionError.

Section EngineRuns.

Import TransactionService.

Variable env : Env.
Variable transaction : TransactionKind.
Variable options : Options.
Variable net : Z -> Network.

Ltac run_body :=
  unfold attempt_body, sendTransaction, confirmTransaction, call, bindE,
    try_catchE, ret, throw.

Ltac body_cases :=
  run_body;
  destruct (skipPreflight options) eqn:?; cbn;
  [|destruct (simulateTransaction (simulate_rpc _)) as [[ok se l]|se] eqn:?; cbn;
    [destruct ok; cbn|]];
  try (destruct (send_rpc _) as [sig|e] eqn:?; cbn);
  try (destruct (skipConfirmation options) eqn:?; cbn);
  try (destruct (blockhash_rpc _) as [u|e'] eqn:?; cbn);
  try (destruct (confirm_rpc _) as [v|e''] eqn:?; cbn);
  try match goal with
      | |- context [truthy ?x] => destruct (truthy x) eqn:?; cbn
      end.

(** What one iteration leaves in the trace. *)
Lemma attempt_body_shape (i : Z) :
  let t := fst (attempt_body transaction options (net i) i) in
  sleeps t = [] /\
  (submissions t <= 1)%nat /\
  (skipConfirmation options = true -> filter is_confirmation_call t = []) /\
  (skipPreflight options = true -> filter is_simulation_call t = []) /\
  (skipPreflight options = false -> simulation_fails (net i) -> submissions t = 0%nat).
Proof.
  cbv zeta. unfold simulation_fails, submissions.
  body_cases; repeat split; cbn; try lia; try reflexivity; try discriminate;
    intros; try discriminate;
    match goal with
    | H : exists r, _ = Ok r /\ _ |- _ =>
        destruct H as (r & Hr & Hs); try discriminate;
        injection Hr as <-; discriminate Hs
    end.
Qed.

(** An iteration that returns hands back the signature of its submission
    and no error. *)
Lemma attempt_body_result (i : Z) (t : list Event) (r : TransactionResult) :
  attempt_body transaction options (net i) i = (t, Ok r) ->
  exists sig, r = {| success := true; signature := Some sig; error := None |}.
Proof.
  body_cases; intros H; try discriminate; injection H as _ <-; eauto.
Qed.

Lemma sleeps_app (t1 t2 : list Event) :
  sleeps (t1 ++ t2) = (sleeps t1 ++ sleeps t2)%list.
Proof.
  induction t1 as [|ev t1 IH]; [reflexivity|].
  destruct ev; cbn; rewrite IH; reflexivity.
Qed.

Variable limit : Z.

(** A property of the events of every iteration and of every pause holds of
    the whole run. *)
Lemma retry_loop_events (P : Event -> Prop) (remaining : nat) (attempt : Z)
  (lastError : value) :
  (forall i, Forall P (fst (attempt_body transaction options (net i) i))) ->
  (forall d, P (Sleep d)) ->
  Forall P (fst (retry_loop env transaction options net limit remaining
                            attempt lastError)).
Proof.
  intros Hbody Hsleep. revert attempt lastError.
  induction remaining as [|remaining IH]; intros attempt lastError;
    cbn [retry_loop]; [constructor|].
  specialize (Hbody attempt).
  destruct (attempt_body transaction options (net attempt) attempt)
    as [t [r|e]]; cbn [fst] in *; [exact Hbody|].
  specialize (IH (attempt + 1) e).
  destruct (retry_loop env transaction options net limit remaining
                       (attempt + 1) e) as [t' result].
  cbn [fst] in *. apply Forall_app. split; [exact Hbody|].
  apply Forall_app. split; [|exact IH].
  destruct (attempt <? limit); repeat constructor. apply Hsleep.
Qed.

(** The outcome that a run returns. *)
Lemma retry_loop_outcome (remaining : nat) (attempt : Z) (lastError : value) :
  let r := snd (retry_loop env transaction options net limit remaining
                           attempt lastError) in
  (exists sig, r = {| success := true; signature := Some sig; error := None |}) \/
  (exists e, r = failed_result limit e).
Proof.
  revert attempt lastError.
  induction remaining as [|remaining IH]; intros attempt lastError;
    cbn [retry_loop].
  - right. eexists. reflexivity.
  - destruct (attempt_body transaction options (net attempt) attempt)
      as [t [r|e]] eqn:Hrun.
    + left. exact (attempt_body_result attempt t r Hrun).
    + specialize (IH (attempt + 1) e). cbv zeta in IH.
      destruct (retry_loop env transaction options net limit remaining
                           (attempt + 1) e) as [t' result].
      exact IH.
Qed.

(** An iteration that returns hands back what the submission returned. *)
Lemma attempt_body_signature (i : Z) (t : list Event) (r : TransactionResult) :
  attempt_body transaction options (net i) i = (t, Ok r) ->
  exists sig,
    send_rpc (net i) = Ok sig /\
    r = {| success := true; signature := Some sig; error := None |}.
Proof.
  body_cases; intros H; try discriminate; injection H as _ <-; eauto.
Qed.

(** Where the result of a run comes from: the submission of one of its
    iterations, or the error of the last one. *)
Lemma retry_loop_result (remaining : nat) (attempt : Z) (lastError : value) :
  remaining <> 0%nat ->
  Z.of_nat remaining = limit - attempt + 1 ->
  let r := snd (retry_loop env transaction options net limit remaining
                           attempt lastError) in
  (exists sig i,
      attempt <= i <= limit /\ send_rpc (net i) = Ok sig /\
      r = {| success := true; signature := Some sig; error := None |}) \/
  (exists t e,
      attempt_body transaction options (net limit) limit = (t, Throw e) /\
      r = failed_result limit e).
Proof.
  revert attempt lastError.
  induction remaining as [|remaining IH]; intros attempt lastError Hne Hinv;
    [contradiction|]. cbn [retry_loop].
  destruct (attempt_body transaction options (net attempt) attempt)
    as [t [r|e]] eqn:Hrun.
  - left. destruct (attempt_body_signature attempt t r Hrun) as (sig & Hs & Hr).
    exists sig, attempt. repeat split; try lia; assumption.
  - destruct remaining as [|remaining'].
    + right. replace limit with attempt by lia. exists t, e.
      split; [exact Hrun|reflexivity].
    + specialize (IH (attempt + 1) e ltac:(discriminate) ltac:(lia)).
      cbv zeta in IH.
      destruct (retry_loop env transaction options net limit (S remaining')
                           (attempt + 1) e) as [t' result].
      cbn [snd] in *.
      destruct IH as [(sig & i & Hi & Hsend & Hr)|IH]; [left|right; exact IH].
      exists sig, i. repeat split; try lia; assumption.
Qed.

(** Counting iterations, submissions and pauses. *)
Lemma retry_loop_counts (remaining : nat) (attempt : Z) (lastError : value) :
  (remaining = 0%nat \/ Z.of_nat remaining = limit - attempt + 1) ->
  let t := fst (retry_loop env transaction options net limit remaining
                           attempt lastError) in
  (submissions t <= List.length (attempts t))%nat /\
  (List.length (attempts t) <= remaining)%nat /\
  (remaining <> 0%nat -> List.length (attempts t) <> 0%nat) /\
  List.length (sleeps t) = pred (List.length (attempts t)).
Proof.
  revert attempt lastError.
  induction remaining as [|remaining IH]; intros attempt lastError Hinv;
    cbn [retry_loop].
  - cbn. repeat split; auto.
  - pose proof (attempt_body_attempts transaction options (net attempt) attempt)
      as Hatt.
    destruct (attempt_body_shape attempt) as (Hsl & Hsub & _).
    destruct (attempt_body transaction options (net attempt) attempt)
      as [t [r|e]]; cbn [fst] in *.
    + rewrite Hatt, Hsl. cbn. repeat split; try lia.
    + assert (Hinv' : remaining = 0%nat \/
                      Z.of_nat remaining = limit - (attempt + 1) + 1) by lia.
      specialize (IH (attempt + 1) e Hinv'). cbv zeta in IH.
      destruct (retry_loop env transaction options net limit remaining
                           (attempt + 1) e) as [t' result].
      cbn [fst] in *. destruct IH as (IH1 & IH2 & IH3 & IH4).
      rewrite !submissions_app, !attempts_app, !sleeps_app, !length_app, Hatt, Hsl.
      destruct remaining as [|remaining'].
      * assert (Hlast : (attempt <? limit) = false) by (apply Z.ltb_ge; lia).
        rewrite Hlast. cbn in *. repeat split; lia.
      * assert (Hmore : (attempt <? limit) = true) by (apply Z.ltb_lt; lia).
        rewrite Hmore. cbn in *.
        assert (List.length (attempts t') <> 0%nat) by (apply IH3; discriminate).
        repeat split; lia.
Qed.

End EngineRuns.

Section EngineProperties.

Import TransactionService.

Variable env : Env.
Variable transaction : TransactionKind.
Variable options : Options.
Variable net : Z -> Network.

Local Abbreviation run := (sendAndConfirmTransaction env transaction options net).
Local Abbreviation m := (effective_maxRetries env options).

Lemma run_invariant_holds :
  Z.to_nat m = 0%nat \/ Z.of_nat (Z.to_nat m) = m - 1 + 1.
Proof. destruct (Z.le_gt_cases m 0); [left|right]; lia. Qed.

(** X8: the outcome of a run with a whole-number retry limit of at least 1,
    when what the network calls raise can be converted to a string.  It is
    either a success that carries the signature which the submission of one
    of the attempts 1..maxRetries returned, and no error; or a failure
    without signature whose text is 'Transaction failed after maxRetries
    attempts: ' followed by the message of the error that the last attempt,
    attempt number maxRetries, threw. *)
Theorem outcome_is_success_or_failure :
  (forall i, printable_raises (net i)) ->
  1 <= m ->
  (exists sig i,
      1 <= i <= m /\ send_rpc (net i) = Ok sig /\
      snd run = {| success := true; signature := Some sig; error := None |}) \/
  (exists t e,
      attempt_body transaction options (net m) m = (t, Throw e) /\
      snd run =
        {| success := false;
           signature := None;
           error := Some ("Transaction failed after " ++ string_of_Z m ++
                          " attempts: " ++ toStr (get_opt e "message")) |}).
Proof.
  intros _ Hm. unfold sendAndConfirmTransaction.
  destruct (retry_loop_result env transaction options net
              (effective_maxRetries env options)
              (Z.to_nat (effective_maxRetries env options)) 1 Null)
    as [(sig & i & Hi & Hsend & Hr)|(t & e & Hlast & Hr)]; try lia.
  - left. exists sig, i. repeat split; try lia; assumption.
  - right. exists t, e. split; [exact Hlast|exact Hr].
Qed.

(** X9: simulation gates submission.  Unless [skipPreflight] is set, a
    transaction whose simulation fails on every attempt is never sent, in
    any of the attempts, and the run fails. *)
Theorem failed_simulation_is_never_submitted :
  skipPreflight options = false ->
  (forall i, simulation_fails (net i)) ->
  submissions (fst run) = 0%nat /\ success (snd run) = false.
Proof.
  intros Hpre Hsim. unfold sendAndConfirmTransaction. split.
  - assert (H : Forall (fun ev => is_send ev = false)
                  (fst (retry_loop env transaction options net
                          (effective_maxRetries env options)
                          (Z.to_nat (effective_maxRetries env options)) 1 Null))).
    { apply retry_loop_events; [|reflexivity].
      intros i.
      destruct (attempt_body_shape transaction options net i)
        as (_ & _ & _ & _ & Hzero).
      specialize (Hzero Hpre (Hsim i)). unfold submissions in Hzero.
      apply Forall_forall. intros ev Hin.
      destruct (is_send ev) eqn:Hs; [|reflexivity].
      assert (In ev (filter is_send
                       (fst (attempt_body transaction options (net i) i))))
        by (apply filter_In; auto).
      destruct (filter is_send _); [contradiction|discriminate]. }
    unfold submissions.
    induction H as [|ev t Hev _ IH]; [reflexivity|].
    cbn. rewrite Hev. exact IH.
  - assert (Hnone : forall remaining attempt lastError,
               success (snd (retry_loop env transaction options net
                               (effective_maxRetries env options) remaining
                               attempt lastError)) = false).
    { induction remaining as [|remaining IH]; intros attempt lastError;
        cbn [retry_loop]; [reflexivity|].
      destruct (attempt_body transaction options (net attempt) attempt)
        as [t [r|e]] eqn:Hrun.
      - exfalso. revert Hrun.
        destruct (Hsim attempt) as (sr & Hsr & Hfail).
        unfold attempt_body, call, bindE, throw, ret.
        rewrite Hpre, Hsr. cbn. rewrite Hfail. cbn. discriminate.
      - specialize (IH (attempt + 1) e).
        destruct (retry_loop _ _ _ _ _ remaining (attempt + 1) e). exact IH. }
    apply Hnone.
Qed.

(** X10: pauses.  A run makes at most one pause per attempt and at least one
    pause between two consecutive attempts, so the pauses number the attempts
    or one less; no pause exceeds 30000 ms, whatever the base delay and the
    random number. *)
Theorem pauses_between_attempts :
  (pred (List.length (attempts (fst run))) <= List.length (sleeps (fst run)))%nat /\
  (List.length (sleeps (fst run)) <= List.length (attempts (fst run)))%nat /\
  Forall (fun d => (d <= 30000)%Q) (sleeps (fst run)).
Proof.
  unfold sendAndConfirmTransaction.
  assert (Hcount :
    List.length (sleeps (fst (retry_loop env transaction options net
                                (effective_maxRetries env options)
                                (Z.to_nat (effective_maxRetries env options))
                                1 Null))) =
    pred (List.length (attempts (fst (retry_loop env transaction options net
                                        (effective_maxRetries env options)
                                        (Z.to_nat (effective_maxRetries env options))
                                        1 Null))))).
  { apply (retry_loop_counts env transaction options net
             (effective_maxRetries env options)
             (Z.to_nat (effective_maxRetries env options)) 1 Null).
    exact run_invariant_holds. }
  split; [lia|]. split; [lia|]. clear Hcount.
  - assert (H : Forall (fun ev => match ev with
                                  | Sleep d => (d <= 30000)%Q
                                  | _ => True
                                  end)
                  (fst (retry_loop env transaction options net
                          (effective_maxRetries env options)
                          (Z.to_nat (effective_maxRetries env options)) 1 Null))).
    { assert (Hall : forall remaining attempt lastError,
                 Forall (fun ev => match ev with
                                   | Sleep d => (d <= 30000)%Q
                                   | _ => True
                                   end)
                   (fst (retry_loop env transaction options net
                           (effective_maxRetries env options) remaining
                           attempt lastError))).
      { induction remaining as [|remaining IH]; intros attempt lastError;
          cbn [retry_loop]; [constructor|].
        destruct (attempt_body_shape transaction options net attempt)
          as (Hsl & _).
        destruct (attempt_body transaction options (net attempt) attempt)
          as [t [r|e]]; cbn [fst] in *.
        - clear - Hsl. induction t as [|ev t IHt]; constructor.
          + destruct ev; try exact I. discriminate Hsl.
          + apply IHt. destruct ev; try exact Hsl. discriminate Hsl.
        - specialize (IH (attempt + 1) e).
          destruct (retry_loop _ _ _ _ _ remaining (attempt + 1) e) as [t' res].
          cbn [fst] in *. apply Forall_app. split.
          + clear - Hsl. induction t as [|ev t IHt]; constructor.
            * destruct ev; try exact I. discriminate Hsl.
            * apply IHt. destruct ev; try exact Hsl. discriminate Hsl.
          + apply Forall_app. split; [|exact IH].
            destruct (attempt <? effective_maxRetries env options);
              repeat constructor.
            unfold calculateRetryDelay, maxDelay. apply Q.le_min_r. }
      apply Hall. }
    induction H as [|ev t Hev _ IH]; [constructor|].
    destruct ev; cbn; try exact IH. constructor; assumption.
Qed.

(** X11: a run sends the transaction at most once per attempt and makes at
    most [maxRetries] attempts; with [skipConfirmation] it never asks for a
    confirmation, and with [skipPreflight] it never simulates. *)
Theorem calls_of_a_run :
  (submissions (fst run) <= List.length (attempts (fst run)))%nat /\
  (List.length (attempts (fst run)) <= Z.to_nat m)%nat /\
  (skipConfirmation options = true ->
   filter is_confirmation_call (fst run) = []) /\
  (skipPreflight options = true ->
   filter is_simulation_call (fst run) = []).
Proof.
  unfold sendAndConfirmTransaction.
  destruct (retry_loop_counts env transaction options net
              (effective_maxRetries env options)
              (Z.to_nat (effective_maxRetries env options)) 1 Null
              run_invariant_holds) as (H1 & H2 & _).
  split; [exact H1|]. split; [exact H2|].
  assert (Hfilter : forall (f : Event -> bool) (t : list Event),
             Forall (fun ev => f ev = false) t -> filter f t = []).
  { intros f t H. induction H as [|ev t' Hev _ IH]; [reflexivity|].
    cbn. rewrite Hev. exact IH. }
  assert (Hbody : forall (f : Event -> bool) i,
             filter f (fst (attempt_body transaction options (net i) i)) = [] ->
             Forall (fun ev => f ev = false)
                    (fst (attempt_body transaction options (net i) i))).
  { intros f i H. apply Forall_forall. intros ev Hin.
    destruct (f ev) eqn:Hf; [|reflexivity].
    assert (Hin' : In ev (filter f (fst (attempt_body transaction options (net i) i))))
      by (apply filter_In; auto).
    rewrite H in Hin'. contradiction. }
  split; intros Hflag; apply Hfilter; apply retry_loop_events;
    try reflexivity; intros i; apply Hbody;
    destruct (attempt_body_shape transaction options net i)
      as (_ & _ & Hc & Hs & _); auto.
Qed.

(** X12: the edges of [maxRetries].  An option of 0 is replaced by the
    value of the environment; with a limit below 1 the loop body never runs:
    nothing is simulated or sent and the result is a failure whose message
    ends in 'undefined'. *)
Theorem maxRetries_edge_cases :
  (opt_maxRetries options = Some 0 -> m = maxRetries env) /\
  (m <= 0 ->
   run = ([], {| success := false;
                 signature := None;
                 error := Some ("Transaction failed after " ++ string_of_Z m ++
                                " attempts: undefined") |})).
Proof.
  split.
  - intros H. unfold effective_maxRetries. rewrite H. reflexivity.
  - intros H. unfold sendAndConfirmTransaction.
    replace (Z.to_nat (effective_maxRetries env options)) with 0%nat by lia.
    reflexivity.
Qed.

End EngineProperties.

Section EngineWitnesses.

Import TransactionService Scenario.

Lemma outcome_is_success_or_failure_witness :
  (exists sig i,
      1 <= i <= effective_maxRetries default_env no_options /\
      send_rpc expired = Ok sig /\
      snd (sendAndConfirmTransaction default_env Versioned no_options
             (fun _ => expired)) =
        {| success := true; signature := Some sig; error := None |}) \/
  (exists t e,
      attempt_body Versioned no_options expired
                   (effective_maxRetries default_env no_options) = (t, Throw e) /\
      snd (sendAndConfirmTransaction default_env Versioned no_options
             (fun _ => expired)) =
        {| success := false;
           signature := None;
           error := Some ("Transaction failed after " ++
                          string_of_Z (effective_maxRetries default_env no_options) ++
                          " attempts: " ++ toStr (get_opt e "message")) |}).
Proof.
  apply (outcome_is_success_or_failure default_env Versioned no_options
           (fun _ => expired)).
  - intros i. unfold printable_raises.
    repeat split; try exact I; try reflexivity. intros e H. discriminate H.
  - vm_compute. discriminate.
Defined.

Lemma failed_simulation_is_never_submitted_witness :
  submissions (fst (sendAndConfirmTransaction default_env Versioned no_options
                      (fun _ => rejected_by_simulation))) = 0%nat /\
  success (snd (sendAndConfirmTransaction default_env Versioned no_options
                  (fun _ => rejected_by_simulation))) = false.
Proof.
  apply (failed_simulation_is_never_submitted default_env Versioned no_options
           (fun _ => rejected_by_simulation)).
  - reflexivity.
  - intros i. eexists. split; reflexivity.
Defined.

Lemma calls_of_a_run_witness :
  filter is_confirmation_call
    (fst (sendAndConfirmTransaction default_env Legacy fire_and_forget
            (fun _ => healthy))) = [] /\
  filter is_simulation_call
    (fst (sendAndConfirmTransaction default_env Legacy fire_and_forget
            (fun _ => healthy))) = [].
Proof.
  destruct (calls_of_a_run default_env Legacy fire_and_forget (fun _ => healthy))
    as (_ & _ & Hc & Hs).
  split; [apply Hc|apply Hs]; reflexivity.
Defined.

Lemma maxRetries_edge_cases_witness :
  effective_maxRetries default_env fire_and_forget = 3 /\
  fst (sendAndConfirmTransaction default_env Legacy negative_retries
         (fun _ => healthy)) = [].
Proof.
  split.
  - apply (proj1 (maxRetries_edge_cases default_env Legacy fire_and_forget
                    (fun _ => healthy))). reflexivity.
  - rewrite (proj2 (maxRetries_edge_cases default_env Legacy negative_retries
                      (fun _ => healthy))); [reflexivity|].
    vm_compute. discriminate.
Defined.

End EngineWitnesses.

Section EngineAndClassifier.

Import TransactionService ErrorHandler.

Variable env : Env.
Variable transaction : TransactionKind.
Variable options : Options.
Variable net : Z -> Network.

Lemma retry_loop_last_error_when_landed_failed (limit : Z) (remaining : nat)
  (attempt : Z) (lastError : value) :
  skipConfirmation options = false ->
  (forall i, simulation_passes options (net i)) ->
  (forall i, landed_but_failed (net i)) ->
  remaining <> 0%nat ->
  snd (retry_loop env transaction options net limit remaining attempt lastError)
  = failed_result limit (new_Error "Transaction failed to confirm within timeout").
Proof.
  intros Hskip Hsim Hland. revert attempt lastError.
  induction remaining as [|remaining IH]; intros attempt lastError Hne;
    [contradiction|]. cbn [retry_loop].
  destruct (attempt_body_landed_but_failed transaction options (net attempt)
              attempt Hskip (Hsim _) (Hland _)) as (t & Hrun & _).
  rewrite Hrun.
  destruct remaining as [|remaining'].
  - reflexivity.
  - specialize (IH (attempt + 1)
                  (new_Error "Transaction failed to confirm within timeout")
                  ltac:(discriminate)).
    destruct (retry_loop env transaction options net limit (S remaining')
                         (attempt + 1) _) as [t' result].
    exact IH.
Qed.

(** X13: what the classifier makes of the engine's own failure.  When every
    attempt landed and failed with an execution error, the message of the
    failed outcome is 'Transaction failed after n attempts: Transaction
    failed to confirm within timeout'; [handleError] puts it in category
    NETWORK and marks it retryable, as it would a loss of connectivity. *)
Theorem landed_failure_is_classified_as_network :
  skipConfirmation options = false ->
  (forall i, simulation_passes options (net i)) ->
  (forall i, landed_but_failed (net i)) ->
  1 <= effective_maxRetries env options ->
  exists msg info,
    error (snd (sendAndConfirmTransaction env transaction options net)) = Some msg /\
    handleError (Str msg) = Ok info /\
    category info = NETWORK /\ retryable info = true.
Proof.
  intros Hskip Hsim Hland Hm. unfold sendAndConfirmTransaction.
  rewrite (retry_loop_last_error_when_landed_failed
             (effective_maxRetries env options)
             (Z.to_nat (effective_maxRetries env options)) 1 Null
             Hskip Hsim Hland) by lia.
  unfold failed_result. cbn [error get_opt new_Error prop toStr String.eqb
    Ascii.eqb Bool.eqb].
  eexists. eexists. split; [reflexivity|]. rewrite handleError_string.
  split; [reflexivity|].
  rewrite category_of_error_info, retryable_by_category.
  assert (Hc : categorize
                 (toLowerCase
                    ("Transaction failed after " ++
                     toStr (Num (effective_maxRetries env options)) ++
                     " attempts: " ++
                     "Transaction failed to confirm within timeout")) = NETWORK).
  { unfold categorize.
    rewrite (matchesPattern_member _ "timeout"); [reflexivity|cbn; auto|].
    rewrite !toLowerCase_app. do 3 apply includes_app_right. reflexivity. }
  cbn [toStr] in *. rewrite Hc. split; reflexivity.
Qed.

End EngineAndClassifier.

Lemma landed_failure_is_classified_as_network_witness :
  exists msg info,
    TransactionService.error
      (snd (TransactionService.sendAndConfirmTransaction Scenario.default_env
              TransactionService.Versioned Scenario.no_options
              (fun _ => Scenario.landed_with_error))) = Some msg /\
    ErrorHandler.handleError (Str msg) = Ok info /\
    ErrorHandler.category info = ErrorHandler.NETWORK /\
    ErrorHandler.retryable info = true.
Proof.
  apply (landed_failure_is_classified_as_network Scenario.default_env
           TransactionService.Versioned Scenario.no_options
           (fun _ => Scenario.landed_with_error)).
  - reflexivity.
  - intros i. right. eexists. split; reflexivity.
  - intros i. do 2 eexists. repeat split.
  - vm_compute. discriminate.
Defined.

(** * Properties of the retry helpers *)

Section Backoff.

Import Helpers.

Variable T : Type.
Variable operation : Z -> Exc T.
Variable delay : Z -> Z.
Variable maxRetries : Z.

Lemma backoff_succeeds (v : T) (k : nat) :
  forall (remaining : nat) (attempt : Z) (lastError : value),
    (k < remaining)%nat ->
    Z.of_nat remaining = maxRetries - attempt + 1 ->
    (forall j, (j < k)%nat -> exists e, operation (attempt + Z.of_nat j) = Throw e) ->
    operation (attempt + Z.of_nat k) = Ok v ->
    exists t,
      backoff_loop T operation delay maxRetries remaining attempt lastError
      = (t, Ok v) /\
      invocations t = range attempt (S k) /\
      waits t = map delay (range attempt k).
Proof.
  induction k as [|k IH]; intros remaining attempt lastError Hlt Hinv Hfail Hok;
    (destruct remaining as [|remaining]; [lia|]); cbn [backoff_loop].
  - replace (attempt + Z.of_nat 0) with attempt in Hok by lia.
    rewrite Hok. eexists. repeat split.
  - destruct (Hfail 0%nat ltac:(lia)) as [e He].
    replace (attempt + Z.of_nat 0) with attempt in He by lia.
    rewrite He.
    assert (Hmore : (attempt <? maxRetries) = true) by (apply Z.ltb_lt; lia).
    rewrite Hmore.
    destruct (IH remaining (attempt + 1) e) as (t & Ht & Hi & Hw); try lia.
    + intros j Hj. destruct (Hfail (S j) ltac:(lia)) as [e' He'].
      exists e'. rewrite <- He'. f_equal. lia.
    + rewrite <- Hok. f_equal. lia.
    + rewrite Ht. eexists. split; [reflexivity|].
      cbn [invocations waits app range map]. rewrite Hi, Hw. split; reflexivity.
Qed.

Lemma backoff_exhausted (errors : Z -> value) :
  (forall i, operation i = Throw (errors i)) ->
  forall (remaining : nat) (attempt : Z) (lastError : value),
    remaining <> 0%nat ->
    Z.of_nat remaining = maxRetries - attempt + 1 ->
    exists t,
      backoff_loop T operation delay maxRetries remaining attempt lastError
      = (t, Throw (errors maxRetries)) /\
      invocations t = range attempt remaining /\
      waits t = map delay (range attempt (pred remaining)).
Proof.
  intros Hfail.
  induction remaining as [|remaining IH]; intros attempt lastError Hne Hinv;
    [contradiction|]. cbn [backoff_loop]. rewrite Hfail.
  destruct remaining as [|remaining'].
  - assert (Hlast : (attempt <? maxRetries) = false) by (apply Z.ltb_ge; lia).
    rewrite Hlast. cbn. replace maxRetries with attempt by lia.
    eexists. repeat split.
  - assert (Hmore : (attempt <? maxRetries) = true) by (apply Z.ltb_lt; lia).
    rewrite Hmore.
    destruct (IH (attempt + 1) (errors attempt)) as (t & Ht & Hi & Hw);
      [discriminate|lia|].
    rewrite Ht. eexists. split; [reflexivity|].
    cbn [invocations waits app]. rewrite Hi, Hw. split; reflexivity.
Qed.

End Backoff.

Section Retry.

Import Helpers.

Variable T : Type.

Lemma sum_of_doubling_delays (base from : Z) (n : nat) :
  0 <= from ->
  fold_right Z.add 0 (map (fun attempt => base * 2 ^ attempt) (range from n))
  = base * 2 ^ from * (2 ^ Z.of_nat n - 1).
Proof.
  revert from. induction n as [|n IH]; intros from Hfrom.
  - cbn. lia.
  - cbn [range map fold_right]. rewrite IH by lia.
    rewrite Nat2Z.inj_succ, !Z.pow_succ_r by lia.
    replace (from + 1) with (Z.succ from) by lia.
    rewrite Z.pow_succ_r by lia. ring.
Qed.

(** X14: [retry] returns the first result that [operation] produces.  If the
    calls 0..k-1 throw and call k (k <= maxRetries) returns [v], then [retry]
    returns [v] after exactly k+1 calls, having slept before each retry for
    [baseDelay * 2^i] after the call i. *)
Theorem retry_returns_first_success (operation : Z -> Exc T)
  (maxRetries baseDelay : Z) (k : nat) (v : T) :
  Z.of_nat k <= maxRetries ->
  (forall j, (j < k)%nat -> exists e, operation (Z.of_nat j) = Throw e) ->
  operation (Z.of_nat k) = Ok v ->
  exists t,
    retry operation maxRetries baseDelay = (t, Ok v) /\
    invocations t = range 0 (S k) /\
    waits t = map (fun attempt => baseDelay * 2 ^ attempt) (range 0 k).
Proof.
  intros Hk Hfail Hok. unfold retry.
  apply backoff_succeeds; try lia.
  - intros j Hj. exact (Hfail j Hj).
  - exact Hok.
Qed.

(** X15: when every call throws, [retry] makes [maxRetries + 1] calls, one
    more than its name says, and throws the error of the last one; it has
    then slept [baseDelay * (2^maxRetries - 1)] in all.  With a negative
    [maxRetries] it calls nothing and throws [undefined]. *)
Theorem retry_exhausted (operation : Z -> Exc T) (errors : Z -> value)
  (maxRetries baseDelay : Z) :
  (forall i, operation i = Throw (errors i)) ->
  (0 <= maxRetries ->
   exists t,
     retry operation maxRetries baseDelay = (t, Throw (errors maxRetries)) /\
     invocations t = range 0 (Z.to_nat (maxRetries + 1)) /\
     total_wait t = baseDelay * (2 ^ maxRetries - 1)) /\
  (maxRetries < 0 ->
   retry operation maxRetries baseDelay = ([], Throw Undefined)).
Proof.
  intros Hfail. split; intros Hm; unfold retry.
  - destruct (backoff_exhausted T operation
                (fun attempt => baseDelay * 2 ^ attempt) maxRetries errors Hfail
                (Z.to_nat (maxRetries + 1)) 0 Undefined) as (t & Ht & Hi & Hw);
      try lia.
    exists t. split; [exact Ht|]. split; [exact Hi|].
    unfold total_wait. rewrite Hw, sum_of_doubling_delays by lia.
    replace (Z.of_nat (pred (Z.to_nat (maxRetries + 1)))) with maxRetries by lia.
    rewrite Z.pow_0_r. ring.
  - replace (Z.to_nat (maxRetries + 1)) with 0%nat by lia. reflexivity.
Qed.

(** X16: [withRetry] of the SDK revision follows the same loop with the
    delays 1000, 2000, 4000, 8000 and then 10000 ms: when every call throws
    it makes [maxRetries + 1] calls, throws the last error, and none of its
    pauses exceeds 10 seconds. *)
Theorem withRetry_exhausted (operation : Z -> Exc T) (errors : Z -> value)
  (maxRetries : Z) :
  (forall i, operation i = Throw (errors i)) ->
  0 <= maxRetries ->
  exists t,
    RaydiumSdk.withRetry operation maxRetries = (t, Throw (errors maxRetries)) /\
    invocations t = range 0 (Z.to_nat (maxRetries + 1)) /\
    waits t = map (fun i => Z.min (1000 * 2 ^ i) 10000)
                  (range 0 (Z.to_nat maxRetries)) /\
    Forall (fun d => 1000 <= d <= 10000) (waits t).
Proof.
  intros Hfail Hm. unfold RaydiumSdk.withRetry.
  destruct (backoff_exhausted T operation
              (fun i => Z.min (1000 * 2 ^ i) 10000) maxRetries errors Hfail
              (Z.to_nat (maxRetries + 1)) 0 Undefined) as (t & Ht & Hi & Hw);
    try lia.
  exists t. split; [exact Ht|]. split; [exact Hi|].
  replace (pred (Z.to_nat (maxRetries + 1))) with (Z.to_nat maxRetries) in Hw by lia.
  split; [exact Hw|]. rewrite Hw.
  assert (Hrange : forall n from, 0 <= from ->
             Forall (fun d => 1000 <= d <= 10000)
                    (map (fun i => Z.min (1000 * 2 ^ i) 10000) (range from n))).
  { induction n as [|n IH]; intros from Hfrom; cbn [range map]; constructor.
    - assert (0 < 2 ^ from) by (apply Z.pow_pos_nonneg; lia). lia.
    - apply IH. lia. }
  apply Hrange. lia.
Qed.

End Retry.

Lemma retry_returns_first_success_witness :
  exists t,
    Helpers.retry (fun i => if i <? 2 then Throw (Str "busy") else Ok i) 3 1000
    = (t, Ok 2) /\
    Helpers.invocations t = [0; 1; 2] /\
    Helpers.waits t = [1000; 2000].
Proof.
  apply (retry_returns_first_success Z
           (fun i => if i <? 2 then Throw (Str "busy") else Ok i) 3 1000 2 2).
  - lia.
  - intros j Hj. exists (Str "busy").
    destruct j as [|[|j]]; [reflexivity|reflexivity|lia].
  - reflexivity.
Defined.

Lemma retry_exhausted_witness :
  exists t,
    Helpers.retry (T := Z) (fun i => Throw (Num i)) 3 1000 = (t, Throw (Num 3)) /\
    Helpers.invocations t = [0; 1; 2; 3] /\
    Helpers.total_wait t = 7000.
Proof.
  apply (proj1 (retry_exhausted Z (fun i => Throw (Num i)) Num 3 1000
                  (fun i => eq_refl))).
  lia.
Defined.

Lemma withRetry_exhausted_witness :
  exists t,
    RaydiumSdk.withRetry (T := Z) (fun i => Throw (Num i)) 5 = (t, Throw (Num 5)) /\
    Helpers.invocations t = [0; 1; 2; 3; 4; 5] /\
    Helpers.waits t = [1000; 2000; 4000; 8000; 10000] /\
    Forall (fun d => 1000 <= d <= 10000) (Helpers.waits t).
Proof.
  apply (withRetry_exhausted Z (fun i => Throw (Num i)) Num 5 (fun i => eq_refl)).
  lia.
Defined.

(** * Further properties of the pool data cache *)

Section PoolCacheLoads.

Import RaydiumService.

Variable PoolInfo : Type.


(** X18: a failed load does not touch the cache.  The error is rethrown as
    'Failed to fetch real pool data: ...', the entry that was there (stale
    or absent) stays as it was and is not served in place of the error. *)
Theorem failed_load_keeps_cache (s : Service PoolInfo) (now : Z) (e : value) :
  cached PoolInfo (poolDataCache s) now = None ->
  let r := getPoolInfo PoolInfo s now (Throw e) in
  fst r = Throw (new_Error ("Failed to fetch real pool data: " ++ toStr e)) /\
  poolDataCache (snd r) = poolDataCache s /\
  fetches (snd r) = S (fetches s) /\
  in_flight (snd r) = in_flight s.
Proof.
  intros Hmiss. cbv zeta. unfold getPoolInfo.
  rewrite (enter_miss PoolInfo s now Hmiss). cbn. repeat split.
Qed.

Lemma suspended_app (a b : list (Call PoolInfo)) :
  suspended (a ++ b) = (suspended a + suspended b)%nat.
Proof. unfold suspended. rewrite filter_app, length_app. reflexivity. Qed.

(** X19: in every state that interleaved calls can reach, the number of
    loads in flight is the number of suspended calls, no more loads are in
    flight than were started, and the cache holds data only if a load was
    started. *)
Theorem in_flight_counts_suspended_calls (st : Service PoolInfo * list (Call PoolInfo)) :
  reachable PoolInfo st ->
  in_flight (fst st) = suspended (snd st) /\
  (in_flight (fst st) <= fetches (fst st))%nat /\
  (data (poolDataCache (fst st)) <> None -> fetches (fst st) <> 0%nat).
Proof.
  induction 1 as [|st st' Hreach IH Hstep].
  - cbn. repeat split; auto.
  - destruct IH as (Hcount & Hle & Hdata).
    destruct Hstep as [s calls now c s' Henter
                      |s before now after fetched r s' Hresume];
      cbn [fst snd] in *.
    + unfold enter in Henter.
      destruct (cached PoolInfo (poolDataCache s) now) as [d|];
        injection Henter as <- <-; rewrite suspended_app; cbn.
      * repeat split; auto; lia.
      * repeat split; lia.
    + rewrite suspended_app in *. cbn in Hcount |- *.
      unfold resume in Hresume.
      destruct fetched as [poolInfo|e]; injection Hresume as <- <-; cbn;
        repeat split; lia.
Qed.

End PoolCacheLoads.


Lemma failed_load_keeps_cache_witness :
  RaydiumService.poolDataCache
    (snd (RaydiumService.getPoolInfo string (RaydiumService.initial string) 1000
            (Throw (Str "fetch failed"))))
  = RaydiumService.poolDataCache (RaydiumService.initial string).
Proof.
  apply (failed_load_keeps_cache string (RaydiumService.initial string) 1000
           (Str "fetch failed")).
  reflexivity.
Defined.

Lemma in_flight_counts_suspended_calls_witness :
  RaydiumService.in_flight
    (snd (RaydiumService.arrive string (RaydiumService.initial string) [0; 5]))
  = RaydiumService.suspended
      (fst (RaydiumService.arrive string (RaydiumService.initial string) [0; 5])).
Proof.
  apply (in_flight_counts_suspended_calls string
           (snd (RaydiumService.arrive string (RaydiumService.initial string) [0; 5]),
            fst (RaydiumService.arrive string (RaydiumService.initial string) [0; 5]))).
  exact (reachable_arrive string (RaydiumService.initial string) [] [0; 5]
           (RaydiumService.reach_initial string)).
Defined.

(** * Further properties of the SDK revision *)

Section SdkWithdrawal.

Import TransactionService RaydiumSdk.

Variable PoolInfo : Type.
Variable liquidity_total liquidity_tokenA liquidity_tokenB : PoolInfo -> Q.

(** X20: in the SDK revision a withdrawal cannot go through.  Its
    [getLiquidityPosition] reads the LP balance as the constant 0, so it
    answers null or rethrows, never a position; [withdrawLiquidity] on top of
    it therefore never reaches the remove-liquidity operation and always
    returns a failure. *)
Theorem sdk_withdrawal_never_executes
  (getPoolInfo : Exc PoolInfo) (getTokenAccountsByOwner : Exc (list value))
  (getPoolInfoAgain : Exc PoolInfo)
  (removeLiquidity : RemoveLiquidityParams PoolInfo -> Exc unit)
  (execute : Exc string) :
  let position := getLiquidityPosition PoolInfo liquidity_total
                    liquidity_tokenA liquidity_tokenB getPoolInfo
                    getTokenAccountsByOwner in
  let r := withdrawLiquidity PoolInfo position getPoolInfoAgain removeLiquidity
             execute in
  (position = Ok None \/ exists e, position = Throw e) /\
  fst r = [] /\ success (snd r) = false /\ signature (snd r) = None.
Proof.
  cbv zeta. unfold getLiquidityPosition.
  destruct getPoolInfo as [pool|e]; cbn; [|split; [right; eauto|repeat split]].
  destruct getTokenAccountsByOwner as [accounts|e]; cbn;
    [|split; [right; eauto|repeat split]].
  destruct (List.length accounts =? 0)%nat; cbn;
    [split; [left; reflexivity|repeat split]|].
  destruct (truthy (nth 0 accounts Undefined)); cbn;
    split; try (left; reflexivity); repeat split.
Qed.

End SdkWithdrawal.

(** * Properties of the validation service *)

Section Validation.

Import ValidationService.

Lemma Qgtb_true (a b : Q) : Qgtb a b = true <-> (b < a)%Q.
Proof.
  unfold Qgtb. rewrite negb_true_iff. split; intros H.
  - apply Qnot_le_lt. intros Hle. apply Qle_bool_iff in Hle. congruence.
  - destruct (Qle_bool a b) eqn:E; [|reflexivity].
    apply Qle_bool_iff in E. exfalso. exact (Qlt_not_le _ _ H E).
Qed.

Lemma Qgtb_false (a b : Q) : Qgtb a b = false <-> (a <= b)%Q.
Proof.
  unfold Qgtb. rewrite negb_false_iff. apply Qle_bool_iff.
Qed.

Lemma Qltb_true (a b : Q) : Qltb a b = true <-> (a < b)%Q.
Proof. exact (Qgtb_true b a). Qed.

Lemma Qltb_false (a b : Q) : Qltb a b = false <-> (b <= a)%Q.
Proof. exact (Qgtb_false b a). Qed.

Variable show_number : Q -> string.

(** X21: an amount that [validateDepositAmount] accepts is at least
    0.001 SOL, is never above the amount that was typed, and respects the
    position limit whenever that limit is positive (a limit of 0 switches the
    check off). *)
Theorem validated_amount_bounds (env : Env) (parsed : option Q) :
  isValid (validateDepositAmount show_number env parsed) = true ->
  exists typed validated,
    parsed = Some typed /\
    amount (validateDepositAmount show_number env parsed) = Some validated /\
    (1 # 1000 <= validated)%Q /\ (validated <= typed)%Q /\
    ((0 < maxPositionSizeSol env)%Q -> (validated <= maxPositionSizeSol env)%Q).
Proof.
  unfold validateDepositAmount.
  destruct parsed as [n|]; [|discriminate].
  destruct (Qle_bool n 0) eqn:Hpos; [discriminate|].
  replace (if testMode env then 1 # 1000 else 1 # 1000)%Q with (1 # 1000)%Q
    by (destruct (testMode env); reflexivity).
  destruct (Qltb n (1 # 1000)) eqn:Hmin; [discriminate|].
  apply Qltb_false in Hmin.
  set (limited := testMode env && Qgtb n (1 # 1000)).
  set (final := if limited then (1 # 1000)%Q else n).
  destruct (Qgtb (maxPositionSizeSol env) 0 && Qgtb final (maxPositionSizeSol env))
    eqn:Hmax; [discriminate|].
  intros _. exists n, final. cbn [amount].
  assert (Hfinal : (1 # 1000 <= final)%Q /\ (final <= n)%Q).
  { subst final. destruct limited; split; try lra; assumption. }
  destruct Hfinal as [Hlow Hhigh].
  repeat split; try assumption.
  intros Hlimit. apply andb_false_iff in Hmax. destruct Hmax as [H|H].
  - apply Qgtb_false in H. lra.
  - apply Qgtb_false in H. exact H.
Qed.

(** X22: in test mode every accepted deposit is for 0.001 SOL, whatever
    amount was typed. *)
Theorem test_mode_deposits_minimum (env : Env) (parsed : option Q) :
  testMode env = true ->
  isValid (validateDepositAmount show_number env parsed) = true ->
  exists validated,
    amount (validateDepositAmount show_number env parsed) = Some validated /\
    (validated == 1 # 1000)%Q.
Proof.
  intros Htest. unfold validateDepositAmount.
  destruct parsed as [n|]; [|discriminate].
  destruct (Qle_bool n 0); [discriminate|]. rewrite Htest.
  destruct (Qltb n (1 # 1000)) eqn:Hmin; [discriminate|].
  apply Qltb_false in Hmin. cbn [andb].
  destruct (Qgtb n (1 # 1000)) eqn:Hgt.
  - destruct (_ && _); [discriminate|]. intros _. eexists. split; reflexivity.
  - apply Qgtb_false in Hgt.
    destruct (_ && _); [discriminate|]. intros _. exists n.
    split; [reflexivity|]. lra.
Qed.

(** X23: [validateSlippage] accepts exactly the values from 0.1 to 50; it
    then hands the value back unchanged with at most one warning, and with
    no warning exactly for the values from 0.5 to 2. *)
Theorem slippage_accepted_range (parsed : option Q) :
  let r := validateSlippage parsed in
  (sl_isValid r = true <->
   exists s, parsed = Some s /\ (1 # 10 <= s)%Q /\ (s <= 50)%Q) /\
  (sl_isValid r = true ->
   slippage r = parsed /\
   (List.length (match sl_warnings r with Some ws => ws | None => [] end) <= 1)%nat /\
   (sl_warnings r = None <->
    exists s, parsed = Some s /\ (1 # 2 <= s)%Q /\ (s <= 2)%Q)).
Proof.
  cbv zeta. unfold validateSlippage.
  destruct parsed as [s|].
  2:{ split; [split; [discriminate|intros (s & H & _); discriminate]|discriminate]. }
  destruct (Qltb s (1 # 10)) eqn:Hlow.
  { apply Qltb_true in Hlow. split; [split; [discriminate|]|discriminate].
    intros (s' & H & H1 & H2). injection H as <-. lra. }
  apply Qltb_false in Hlow.
  destruct (Qgtb s 50) eqn:Hhigh.
  { apply Qgtb_true in Hhigh. split; [split; [discriminate|]|discriminate].
    intros (s' & H & H1 & H2). injection H as <-. lra. }
  apply Qgtb_false in Hhigh. cbn [sl_isValid slippage sl_warnings].
  split; [split; [intros _; exists s; auto|reflexivity]|].
  intros _. split; [reflexivity|].
  destruct (Qltb s (1 # 2)) eqn:H1; [|destruct (Qgtb s 5) eqn:H2;
    [|destruct (Qgtb s 2) eqn:H3]]; cbn; (split; [lia|]);
    try apply Qltb_true in H1; try apply Qltb_false in H1;
    try apply Qgtb_true in H2; try apply Qgtb_false in H2;
    try apply Qgtb_true in H3; try apply Qgtb_false in H3;
    (split; [try discriminate; intros _; exists s; repeat split; lra
            |try reflexivity;
             intros (s' & H & Ha & Hb); injection H as <-; lra]).
Qed.

(** X24: outside test mode [assessOperationRisk] answers HIGH for every
    operation and every amount: the two adjustments LOW -> MEDIUM and
    MEDIUM -> HIGH are applied one after the other.  In test mode, monitoring
    is always LOW. *)
Theorem live_mode_risk_is_high (env : Env) (operation : Operation)
  (amount : option Q) :
  (testMode env = false ->
   riskLevel (assessOperationRisk env operation amount) = RISK_HIGH) /\
  (testMode env = true ->
   riskLevel (assessOperationRisk env monitor amount) = RISK_LOW).
Proof.
  unfold assessOperationRisk.
  split; intros Hmode; rewrite Hmode; cbn [negb];
    destruct (amount_given amount) as [a|];
    try (destruct (Qgtb a 1); [|destruct (Qgtb a (1 # 10))]);
    try destruct operation; reflexivity.
Qed.

End Validation.

Lemma validated_amount_bounds_witness :
  exists typed validated,
    Some (5 # 2)%Q = Some typed /\
    ValidationService.amount
      (ValidationService.validateDepositAmount (fun _ => "3")
         {| ValidationService.testMode := false;
            ValidationService.maxPositionSizeSol := 3%Q |}
         (Some (5 # 2)%Q)) = Some validated /\
    (1 # 1000 <= validated)%Q /\ (validated <= typed)%Q /\
    ((0 < 3)%Q -> (validated <= 3)%Q).
Proof.
  apply (validated_amount_bounds (fun _ => "3")
           {| ValidationService.testMode := false;
              ValidationService.maxPositionSizeSol := 3%Q |}
           (Some (5 # 2)%Q)).
  reflexivity.
Defined.

Lemma test_mode_deposits_minimum_witness :
  exists validated,
    ValidationService.amount
      (ValidationService.validateDepositAmount (fun _ => "1")
         {| ValidationService.testMode := true;
            ValidationService.maxPositionSizeSol := 1%Q |}
         (Some 25%Q)) = Some validated /\
    (validated == 1 # 1000)%Q.
Proof.
  apply (test_mode_deposits_minimum (fun _ => "1")
           {| ValidationService.testMode := true;
              ValidationService.maxPositionSizeSol := 1%Q |}
           (Some 25%Q)); reflexivity.
Defined.

Lemma slippage_accepted_range_witness :
  ValidationService.slippage (ValidationService.validateSlippage (Some (3 # 1)%Q))
  = Some (3 # 1)%Q.
Proof.
  apply (proj2 (slippage_accepted_range (Some (3 # 1)%Q))). reflexivity.
Defined.

Lemma live_mode_risk_is_high_witness :
  ValidationService.riskLevel
    (ValidationService.assessOperationRisk
       {| ValidationService.testMode := false;
          ValidationService.maxPositionSizeSol := 1%Q |}
       ValidationService.monitor None) = ValidationService.RISK_HIGH.
Proof.
  apply (proj1 (live_mode_risk_is_high
                  {| ValidationService.testMode := false;
                     ValidationService.maxPositionSizeSol := 1%Q |}
                  ValidationService.monitor None)).
  reflexivity.
Defined.

(** * Properties of the display helpers *)

Section Display.

Import Helpers.

Lemma length_substring (s : string) (n m : nat) :
  (n + m <= String.length s)%nat ->
  String.length (String.substring n m s) = m.
Proof.
  revert n m. induction s as [|c s IH]; intros n m H; cbn in H.
  - destruct n, m; try lia; reflexivity.
  - destruct n as [|n].
    + destruct m as [|m]; [reflexivity|]. cbn. f_equal. apply IH. lia.
    + cbn. apply IH. lia.
Qed.

Lemma substring_whole (s : string) :
  String.substring 0 (String.length s) s = s.
Proof.
  induction s as [|c s IH]; [reflexivity|]. cbn. rewrite IH. reflexivity.
Qed.

Lemma length_append (a b : string) :
  String.length (a ++ b) = (String.length a + String.length b)%nat.
Proof. induction a as [|c a IH]; [reflexivity|]. cbn. rewrite IH. reflexivity. Qed.

(** X25: [truncateAddress] leaves an address of at most
    [startLength + endLength] characters as it is; a longer one becomes its
    first [startLength] characters, three dots and its last [endLength]
    characters, [startLength + 3 + endLength] characters in all.  With
    [endLength = 0] nothing is cut at the end: the dots are followed by the
    whole address, because [slice(-0)] is [slice(0)]. *)
Theorem truncateAddress_lengths (address : string) (startLength endLength : Z) :
  let len := Z.of_nat (String.length address) in
  (len <= startLength + endLength ->
   truncateAddress address startLength endLength = address) /\
  (0 <= startLength -> 0 < endLength -> startLength + endLength < len ->
   Z.of_nat (String.length (truncateAddress address startLength endLength))
   = startLength + 3 + endLength) /\
  (0 <= startLength < len -> endLength = 0 ->
   truncateAddress address startLength endLength
   = String.substring 0 (Z.to_nat startLength) address ++ "..." ++ address).
Proof.
  cbv zeta. unfold truncateAddress. repeat split.
  - intros H. apply Z.leb_le in H. rewrite H. reflexivity.
  - intros Hs He Hlen.
    assert (Hcut : (Z.of_nat (String.length address) <=? startLength + endLength)
                   = false) by (apply Z.leb_gt; lia).
    rewrite Hcut. unfold slice, resolve_index.
    assert (H0 : (0 <? 0) = false) by reflexivity. rewrite H0.
    assert (H1 : (startLength <? 0) = false) by (apply Z.ltb_ge; lia). rewrite H1.
    assert (H2 : (- endLength <? 0) = true) by (apply Z.ltb_lt; lia). rewrite H2.
    rewrite !length_append, !length_substring by lia.
    cbn [String.length]. lia.
  - intros Hs ->.
    assert (Hcut : (Z.of_nat (String.length address) <=? startLength + 0)
                   = false) by (apply Z.leb_gt; lia).
    rewrite Hcut. unfold slice, resolve_index. cbn [Z.opp].
    assert (H0 : (0 <? 0) = false) by reflexivity. rewrite H0.
    assert (H1 : (startLength <? 0) = false) by (apply Z.ltb_ge; lia). rewrite H1.
    replace (Z.min 0 (Z.of_nat (String.length address))) with 0 by lia.
    replace (Z.min startLength (Z.of_nat (String.length address)) - 0)
      with startLength by lia.
    replace (Z.to_nat (Z.of_nat (String.length address) - 0))
      with (String.length address) by lia.
    cbn [Z.to_nat]. rewrite substring_whole. reflexivity.
Qed.

(** X26: [formatDuration] shows a decomposition of the duration: for a
    whole number of seconds that is not negative, the hours, minutes and
    seconds that it prints add up to the duration, with minutes and seconds
    below 60; the hours are left out when they are 0, and then the minutes
    too when they are 0. *)
Theorem formatDuration_decomposes (seconds : Z) :
  0 <= seconds ->
  exists hours minutes secs,
    hours * 3600 + minutes * 60 + secs = seconds /\
    0 <= hours /\ 0 <= minutes < 60 /\ 0 <= secs < 60 /\
    formatDuration seconds =
      if hours >? 0 then
        string_of_Z hours ++ "h " ++ string_of_Z minutes ++ "m " ++
        string_of_Z secs ++ "s"
      else if minutes >? 0 then
        string_of_Z minutes ++ "m " ++ string_of_Z secs ++ "s"
      else string_of_Z secs ++ "s".
Proof.
  intros Hs.
  exists (seconds / 3600), (Z.rem seconds 3600 / 60), (Z.rem seconds 60).
  rewrite !Z.rem_mod_nonneg by lia.
  split; [|split; [|split; [|split]]].
  - assert (H1 := Z.div_mod seconds 3600 ltac:(lia)).
    assert (H2 := Z.div_mod (seconds mod 3600) 60 ltac:(lia)).
    assert (Hb := Z.mod_pos_bound (seconds mod 3600) 60 ltac:(lia)).
    assert (H3 : (seconds mod 3600) mod 60 = seconds mod 60).
    { apply (Z.mod_unique seconds 60
               (seconds / 3600 * 60 + seconds mod 3600 / 60)); [left; lia|lia]. }
    lia.
  - apply Z.div_pos; lia.
  - assert (H := Z.mod_pos_bound seconds 3600 ltac:(lia)).
    split; [apply Z.div_pos; lia|apply Z.div_lt_upper_bound; lia].
  - apply Z.mod_pos_bound. lia.
  - unfold formatDuration. rewrite !Z.rem_mod_nonneg by lia. reflexivity.
Qed.

End Display.

Lemma truncateAddress_lengths_witness :
  Helpers.truncateAddress "5aEG1Vv4dJE5MiFqLTXrvVJPVD5g2d2FgK7vPco2KHfJ" 6 0
  = "5aEG1V" ++ "..." ++ "5aEG1Vv4dJE5MiFqLTXrvVJPVD5g2d2FgK7vPco2KHfJ".
Proof.
  apply (proj2 (proj2 (truncateAddress_lengths
                         "5aEG1Vv4dJE5MiFqLTXrvVJPVD5g2d2FgK7vPco2KHfJ" 6 0)));
    [vm_compute; split; [discriminate|reflexivity]|reflexivity].
Defined.

Lemma formatDuration_decomposes_witness :
  exists hours minutes secs,
    hours * 3600 + minutes * 60 + secs = 3725 /\
    0 <= hours /\ 0 <= minutes < 60 /\ 0 <= secs < 60 /\
    Helpers.formatDuration 3725 =
      if hours >? 0 then
        string_of_Z hours ++ "h " ++ string_of_Z minutes ++ "m " ++
        string_of_Z secs ++ "s"
      else if minutes >? 0 then
        string_of_Z minutes ++ "m " ++ string_of_Z secs ++ "s"
      else string_of_Z secs ++ "s".
Proof.
  apply (formatDuration_decomposes 3725). lia.
Defined.

(** * The two retry policies *)

Section RetryPolicies.

Import TransactionService ErrorHandler.

(** X27: [isRetryableError] and the classifier agree on transport errors.
    A message that [isRetryableError] accepts is put by [handleError] in
    category NETWORK or RPC, both retryable, unless it was accepted for
    'internal server error' alone, a pattern the classifier does not know. *)
Theorem retryable_errors_are_network_or_rpc (msg : string) :
  isRetryableError msg = true ->
  exists info,
    handleError (Str msg) = Ok info /\
    ((category info = NETWORK \/ category info = RPC) /\ retryable info = true
     \/ includes "internal server error" (toLowerCase msg) = true).
Proof.
  intros H. rewrite handleError_string. eexists. split; [reflexivity|].
  rewrite category_of_error_info, retryable_by_category.
  unfold isRetryableError in H. apply existsb_exists in H.
  destruct H as (p & Hin & Hp).
  set (lower := toLowerCase msg) in *.
  assert (Hnet : forall q, In q ["network"; "timeout"; "connection"; "econnreset";
                                 "enotfound"; "fetch"; "429"; "rate limit";
                                 "service unavailable"] ->
                           includes q lower = true -> categorize lower = NETWORK).
  { intros q Hq Hi. unfold categorize.
    rewrite (matchesPattern_member lower q _ Hq Hi). reflexivity. }
  cbn [In] in Hin.
  repeat (destruct Hin as [<-|Hin];
          [try (match type of Hp with
                | includes ?q _ = true =>
                    left; rewrite (Hnet q ltac:(cbn; auto 12) Hp); auto
                end)|]);
    try contradiction.
  - assert (Hb : includes "blockhash" lower = true)
      by exact (includes_shorter_pattern "blockhash" " not found" lower Hp).
    left. unfold categorize.
    destruct (matchesPattern lower _); [auto|].
    rewrite (matchesPattern_member lower "blockhash") by (cbn; auto 10).
    auto.
  - right. exact Hp.
Qed.

End RetryPolicies.

Lemma retryable_errors_are_network_or_rpc_witness :
  exists info,
    ErrorHandler.handleError (Str "Blockhash not found") = Ok info /\
    ((ErrorHandler.category info = ErrorHandler.NETWORK \/
      ErrorHandler.category info = ErrorHandler.RPC) /\
     ErrorHandler.retryable info = true
     \/ includes "internal server error" (toLowerCase "Blockhash not found") = true).
Proof.
  apply (retryable_errors_are_network_or_rpc "Blockhash not found").
  reflexivity.
Defined.
